(** * foxwaf: the response interceptor and the phase drivers

    A shallow embedding of [writer.go] and [coraza.go] of
    github.com/tigerwill90/foxwaf.  The two collaborators the package talks
    to, the Coraza transaction ([types.Transaction]) and the router's
    response writer ([fox.ResponseWriter]), are interfaces in the source:
    the transaction is kept abstract (a type of engine states with one
    function per interface method), the response writer is a recorder of
    the calls it receives. *)

From stdpp Require Import base tactics option list numbers strings gmap fin_maps.
From Stdlib Require Import ZArith Lia Ascii String.
From Stdlib.Strings Require Import Byte.

Local Open Scope string_scope.
Local Open Scope list_scope.
Local Open Scope Z_scope.

(** ** Go primitives *)

(** Go's [int] on the supported 64-bit targets: two's complement wrap-around. *)
Definition wrap64 (z : Z) : Z := (z + 2 ^ 63) mod 2 ^ 64 - 2 ^ 63.

Definition maxInt64 : Z := 2 ^ 63 - 1.
Definition minInt64 : Z := - 2 ^ 63.

(** [error] values are kept by their message. *)
Definition error := string.

(** [s[:i]] and [s[i:]] for an index [i] within [s]. *)
Fixpoint take_str (n : nat) (s : string) : string :=
  match n, s with
  | S k, String c r => String c (take_str k r)
  | _, _ => EmptyString
  end.

Fixpoint drop_str (n : nat) (s : string) : string :=
  match n, s with
  | S k, String _ r => drop_str k r
  | _, _ => s
  end.

Definition slice_to (s : string) (i : Z) : string := take_str (Z.to_nat i) s.
Definition slice_from (s : string) (i : Z) : string := drop_str (Z.to_nat i) s.

(** [strings.LastIndexByte]: the index of the last [c] in [s], or [-1]. *)
Fixpoint last_index_from (pos : Z) (c : ascii) (s : string) : Z :=
  match s with
  | EmptyString => -1
  | String a r =>
      let later := last_index_from (pos + 1) c r in
      if later =? -1 then (if Ascii.eqb a c then pos else -1) else later
  end.

Definition LastIndexByte (s : string) (c : ascii) : Z := last_index_from 0 c s.

Definition code (c : ascii) : Z := Z.of_N (N_of_ascii c).

Definition is_digit (c : ascii) : bool := (48 <=? code c) && (code c <=? 57).
Definition is_lower (c : ascii) : bool := (97 <=? code c) && (code c <=? 122).
Definition is_upper (c : ascii) : bool := (65 <=? code c) && (code c <=? 90).

Fixpoint all_chars (p : ascii -> bool) (s : string) : bool :=
  match s with
  | EmptyString => true
  | String c r => p c && all_chars p r
  end.

Fixpoint decimal (acc : Z) (s : string) : Z :=
  match s with
  | EmptyString => acc
  | String c r => decimal (10 * acc + (code c - 48)) r
  end.

(** [strconv.Atoi]: an optional sign and decimal digits.  A syntax error
    gives [0], a value out of the range of [int] gives the nearest bound;
    both come with an error. *)
Definition Atoi (s : string) : Z * option error :=
  let '(neg, digits) :=
    match s with
    | String "-" r => (true, r)
    | String "+" r => (false, r)
    | _ => (false, s)
    end in
  match digits with
  | EmptyString => (0, Some "invalid syntax")
  | _ =>
      if all_chars is_digit digits then
        let un := decimal 0 digits in
        if negb neg && (maxInt64 <? un) then (maxInt64, Some "value out of range")
        else if neg && (- minInt64 <? un) then (minInt64, Some "value out of range")
        else ((if neg then - un else un), None)
      else (0, Some "invalid syntax")
  end.

(** ** [http.Header]

    A Go map from header name to the list of its values. *)
Abbreviation http_Header := (gmap string (list string)).

(** The token bytes of net/textproto's [validHeaderFieldByte]. *)
Definition validHeaderFieldByte (c : ascii) : bool :=
  is_digit c || is_lower c || is_upper c ||
  match c with
  | "!" | "#" | "$" | "%" | "&" | "'" | "*" | "+" | "-" | "." | "^" | "_"
  | "`" | "|" | "~" => true
  | _ => false
  end%char.

Definition to_upper (c : ascii) : ascii :=
  if is_lower c then ascii_of_N (N_of_ascii c - 32) else c.
Definition to_lower (c : ascii) : ascii :=
  if is_upper c then ascii_of_N (N_of_ascii c + 32) else c.

(** Upper case at the start and after each dash, lower case elsewhere. *)
Fixpoint canon_case (upper : bool) (s : string) : string :=
  match s with
  | EmptyString => EmptyString
  | String c r =>
      let c' := if upper then to_upper c else to_lower c in
      String c' (canon_case (Ascii.eqb c' "-") r)
  end.

(** [textproto.CanonicalMIMEHeaderKey]: a key with a byte that is no token
    byte is returned as it is, any other key is put in canonical case. *)
Definition CanonicalMIMEHeaderKey (s : string) : string :=
  if all_chars validHeaderFieldByte s then canon_case true s else s.

(** [Header.Set] and [Header.Del] canonicalise the key they are given;
    a direct assignment [h[k] = vs] does not. *)
Definition Header_Set (k v : string) (h : http_Header) : http_Header :=
  <[CanonicalMIMEHeaderKey k := [v]]> h.

Definition Header_Add (k v : string) (h : http_Header) : http_Header :=
  <[CanonicalMIMEHeaderKey k := default [] (h !! CanonicalMIMEHeaderKey k) ++ [v]]> h.

Definition Header_Del (k : string) (h : http_Header) : http_Header :=
  delete (CanonicalMIMEHeaderKey k) h.

(** [for k, vv := range h]: the entries of the map in the order of one
    traversal.  Go leaves the order unspecified; [map_to_list] fixes one. *)
Definition range (h : http_Header) : list (string * list string) := map_to_list h.

(** ** The inspection engine: [types.Transaction]

    [types.Interruption] is the verdict a phase may return. *)
Record Interruption := {
  RuleID : Z;
  Action : string;
  Status : Z;
  Data : string
}.

(** An [io.Reader]: the chunks its successive [Read] calls yield (each at
    most the size of the caller's buffer) and the error that ends the stream,
    [None] for [io.EOF]. *)
Record Reader := {
  chunks : list (list byte);
  read_err : option error
}.

Definition io_MultiReader (r1 r2 : Reader) : Reader :=
  match read_err r1 with
  | Some _ => r1
  | None => {| chunks := chunks r1 ++ chunks r2; read_err := read_err r2 |}
  end.

(** The methods of [types.Transaction] this package calls, over an abstract
    type [T] of engine states.  The getters are functions of the state; every
    other method returns the next state next to its results. *)
Class Engine (T : Type) := {
  eProcessConnection : string -> Z -> string -> Z -> T -> T;
  eProcessURI : string -> string -> string -> T -> T;
  eAddRequestHeader : string -> string -> T -> T;
  eSetServerName : string -> T -> T;
  eProcessRequestHeaders : T -> option Interruption * T;
  eIsRequestBodyAccessible : T -> bool;
  eReadRequestBodyFrom :
    Reader -> T -> (option Interruption * Z * option error) * Reader * T;
  eRequestBodyReader : T -> error + Reader;
  eProcessRequestBody : T -> (option Interruption * option error) * T;
  eIsRuleEngineOff : T -> bool;
  eIsInterrupted : T -> bool;
  eAddResponseHeader : string -> string -> T -> T;
  eProcessResponseHeaders : Z -> string -> T -> option Interruption * T;
  eIsResponseBodyAccessible : T -> bool;
  eIsResponseBodyProcessable : T -> bool;
  eWriteResponseBody : list byte -> T -> (option Interruption * Z * option error) * T;
  eProcessResponseBody : T -> (option Interruption * option error) * T;
  eResponseBodyReader : T -> error + Reader;
  eProcessLogging : T -> T;
  eClose : T -> option error * T
}.

(** The state-changing calls a transaction receives, with their arguments. *)
Inductive TxCall :=
| CProcessConnection (client : string) (cport : Z) (server : string) (sport : Z)
| CProcessURI (uri method proto : string)
| CAddRequestHeader (k v : string)
| CSetServerName (name : string)
| CProcessRequestHeaders
| CReadRequestBodyFrom
| CProcessRequestBody
| CAddResponseHeader (k v : string)
| CProcessResponseHeaders (code : Z) (proto : string)
| CWriteResponseBody (b : list byte)
| CProcessResponseBody
| CProcessLogging
| CClose.

(** A transaction as the package sees it: the engine's state, the calls made
    on it so far, and what was sent to its [DebugLogger]. *)
Record Session (T : Type) := {
  engine : T;
  calls : list TxCall;
  debuglog : list (string * option error)
}.
Arguments engine {T}.
Arguments calls {T}.
Arguments debuglog {T}.

Section Transaction.
Context {T : Type} `{Engine T}.

Definition NewTransaction (fresh : T) : Session T :=
  {| engine := fresh; calls := []; debuglog := [] |}.

Definition invoke {A} (c : TxCall) (r : A * T) (tx : Session T) : A * Session T :=
  (r.1, {| engine := r.2; calls := calls tx ++ [c]; debuglog := debuglog tx |}).

Definition invoke_ (c : TxCall) (e : T) (tx : Session T) : Session T :=
  {| engine := e; calls := calls tx ++ [c]; debuglog := debuglog tx |}.

Definition ProcessConnection client cport server sport (tx : Session T) :=
  invoke_ (CProcessConnection client cport server sport)
    (eProcessConnection client cport server sport (engine tx)) tx.
Definition ProcessURI uri method proto (tx : Session T) :=
  invoke_ (CProcessURI uri method proto) (eProcessURI uri method proto (engine tx)) tx.
Definition AddRequestHeader k v (tx : Session T) :=
  invoke_ (CAddRequestHeader k v) (eAddRequestHeader k v (engine tx)) tx.
Definition SetServerName name (tx : Session T) :=
  invoke_ (CSetServerName name) (eSetServerName name (engine tx)) tx.
Definition ProcessRequestHeaders (tx : Session T) :=
  invoke CProcessRequestHeaders (eProcessRequestHeaders (engine tx)) tx.
Definition IsRequestBodyAccessible (tx : Session T) := eIsRequestBodyAccessible (engine tx).
Definition ReadRequestBodyFrom (r : Reader) (tx : Session T) :=
  invoke CReadRequestBodyFrom (eReadRequestBodyFrom r (engine tx)) tx.
Definition RequestBodyReader (tx : Session T) := eRequestBodyReader (engine tx).
Definition ProcessRequestBody (tx : Session T) :=
  invoke CProcessRequestBody (eProcessRequestBody (engine tx)) tx.
Definition IsRuleEngineOff (tx : Session T) := eIsRuleEngineOff (engine tx).
Definition IsInterrupted (tx : Session T) := eIsInterrupted (engine tx).
Definition AddResponseHeader k v (tx : Session T) :=
  invoke_ (CAddResponseHeader k v) (eAddResponseHeader k v (engine tx)) tx.
Definition ProcessResponseHeaders code proto (tx : Session T) :=
  invoke (CProcessResponseHeaders code proto)
    (eProcessResponseHeaders code proto (engine tx)) tx.
Definition IsResponseBodyAccessible (tx : Session T) := eIsResponseBodyAccessible (engine tx).
Definition IsResponseBodyProcessable (tx : Session T) := eIsResponseBodyProcessable (engine tx).
Definition WriteResponseBody b (tx : Session T) :=
  invoke (CWriteResponseBody b) (eWriteResponseBody b (engine tx)) tx.
Definition ProcessResponseBody (tx : Session T) :=
  invoke CProcessResponseBody (eProcessResponseBody (engine tx)) tx.
Definition ResponseBodyReader (tx : Session T) := eResponseBodyReader (engine tx).
Definition ProcessLogging (tx : Session T) :=
  invoke_ CProcessLogging (eProcessLogging (engine tx)) tx.
Definition Close (tx : Session T) := invoke CClose (eClose (engine tx)) tx.

(** [tx.DebugLogger().Error().Err(err).Msg(msg)] *)
Definition DebugError (err : option error) (msg : string) (tx : Session T) : Session T :=
  {| engine := engine tx; calls := calls tx; debuglog := debuglog tx ++ [(msg, err)] |}.
End Transaction.

(** ** The downstream writer: [fox.ResponseWriter]

    The writer the router hands to the middleware, as a recorder: its header
    map and the calls that reached it.  What [Write] returns is the
    connection's business: [wire_write] gives it from the writer's state. *)
Inductive WEvent :=
| EvWriteHeader (code : Z)
| EvWrite (b : list byte)
| EvFlush.

Record ResponseWriter := {
  header : http_Header;
  events : list WEvent
}.

Class Wire := { wire_write : ResponseWriter -> list byte -> Z * option error }.

Definition set_header (h : http_Header) (rw : ResponseWriter) : ResponseWriter :=
  {| header := h; events := events rw |}.

Definition record (e : WEvent) (rw : ResponseWriter) : ResponseWriter :=
  {| header := header rw; events := events rw ++ [e] |}.

Definition down_WriteHeader (code : Z) (rw : ResponseWriter) : ResponseWriter :=
  record (EvWriteHeader code) rw.

Definition down_Write `{Wire} (b : list byte) (rw : ResponseWriter)
  : (Z * option error) * ResponseWriter :=
  (wire_write rw b, record (EvWrite b) rw).

Definition blen (b : list byte) : Z := Z.of_nat (List.length b).

(** [io.Copy] and [io.CopyBuffer] over a destination that only writes: one
    [Write] per non-empty chunk read, stopping at the first failed or short
    write. *)
Section Copy.
Context {S : Type} (write : list byte -> S -> (Z * option error) * S).

Fixpoint copy_chunks (cs : list (list byte)) (rerr : option error) (written : Z) (dst : S)
  : (Z * option error) * S :=
  match cs with
  | [] => ((written, rerr), dst)
  | c :: rest =>
      if blen c =? 0 then copy_chunks rest rerr written dst else
      let '((nw, ew), dst) := write c dst in
      let '(nw, ew) :=
        if (nw <? 0) || (blen c <? nw)
        then (0, Some (default "invalid write result" ew))
        else (nw, ew) in
      let written := wrap64 (written + nw) in
      match ew with
      | Some e => ((written, Some e), dst)
      | None =>
          if negb (blen c =? nw) then ((written, Some "short write"), dst)
          else copy_chunks rest rerr written dst
      end
  end.

Definition io_Copy (src : Reader) (dst : S) : (Z * option error) * S :=
  copy_chunks (chunks src) (read_err src) 0 dst.
End Copy.

(** ** coraza.go: the verdict resolver *)

Definition StatusOK : Z := 200.
Definition StatusInternalServerError : Z := 500.

Definition obtainStatusCodeFromInterruptionOrDefault
    (it : Interruption) (defaultStatusCode : Z) : Z :=
  if String.eqb (Action it) "deny" then
    let statusCode := Status it in
    let statusCode := if statusCode =? 0 then 403 else statusCode in
    statusCode
  else defaultStatusCode.

(** ** writer.go: the response interceptor *)

Definition notWritten : Z := -1.

(** The struct.  [w] and [tx] are references in the source; between [reset]
    and the end of the request nothing but the interceptor's methods reaches
    the two objects, so the record carries them and the middleware reads them
    back when the interceptor is done. *)
Record rwInterceptor (T : Type) := {
  w : ResponseWriter;
  tx : Session T;
  proto : string;
  statusCode : Z;
  size : Z;
  isWriteHeaderFlush : bool;
  wroteHeader : bool
}.
Arguments w {T}.
Arguments tx {T}.
Arguments proto {T}.
Arguments statusCode {T}.
Arguments size {T}.
Arguments isWriteHeaderFlush {T}.
Arguments wroteHeader {T}.

(** Lines of the process-wide standard logger ([log.Printf]). *)
Inductive LogLine :=
| SuperfluousWriteHeader.

(** What a method of the interceptor can change: the struct (with the two
    objects it refers to) and the standard logger. *)
Record Mem (T : Type) := {
  icpt : rwInterceptor T;
  stdlog : list LogLine
}.
Arguments icpt {T}.
Arguments stdlog {T}.

Section Interceptor.
Context {T : Type} `{Engine T} `{Wire}.

Definition set_w (x : ResponseWriter) (i : rwInterceptor T) : rwInterceptor T :=
  {| w := x; tx := tx i; proto := proto i; statusCode := statusCode i; size := size i;
     isWriteHeaderFlush := isWriteHeaderFlush i; wroteHeader := wroteHeader i |}.
Definition set_tx (x : Session T) (i : rwInterceptor T) : rwInterceptor T :=
  {| w := w i; tx := x; proto := proto i; statusCode := statusCode i; size := size i;
     isWriteHeaderFlush := isWriteHeaderFlush i; wroteHeader := wroteHeader i |}.
Definition set_proto (x : string) (i : rwInterceptor T) : rwInterceptor T :=
  {| w := w i; tx := tx i; proto := x; statusCode := statusCode i; size := size i;
     isWriteHeaderFlush := isWriteHeaderFlush i; wroteHeader := wroteHeader i |}.
Definition set_statusCode (x : Z) (i : rwInterceptor T) : rwInterceptor T :=
  {| w := w i; tx := tx i; proto := proto i; statusCode := x; size := size i;
     isWriteHeaderFlush := isWriteHeaderFlush i; wroteHeader := wroteHeader i |}.
Definition set_size (x : Z) (i : rwInterceptor T) : rwInterceptor T :=
  {| w := w i; tx := tx i; proto := proto i; statusCode := statusCode i; size := x;
     isWriteHeaderFlush := isWriteHeaderFlush i; wroteHeader := wroteHeader i |}.
Definition set_isWriteHeaderFlush (x : bool) (i : rwInterceptor T) : rwInterceptor T :=
  {| w := w i; tx := tx i; proto := proto i; statusCode := statusCode i; size := size i;
     isWriteHeaderFlush := x; wroteHeader := wroteHeader i |}.
Definition set_wroteHeader (x : bool) (i : rwInterceptor T) : rwInterceptor T :=
  {| w := w i; tx := tx i; proto := proto i; statusCode := statusCode i; size := size i;
     isWriteHeaderFlush := isWriteHeaderFlush i; wroteHeader := x |}.

Definition upd (f : rwInterceptor T -> rwInterceptor T) (m : Mem T) : Mem T :=
  {| icpt := f (icpt m); stdlog := stdlog m |}.

(** [Status()] in the source; [Status] names the verdict's field here. *)
Definition RecordedStatus (i : rwInterceptor T) : Z := statusCode i.

Definition Written (i : rwInterceptor T) : bool := negb (size i =? notWritten).

Definition Size (i : rwInterceptor T) : Z := if size i <? 0 then 0 else size i.

Definition reset (tx : Session T) (writer : ResponseWriter) (proto : string)
    (i : rwInterceptor T) : rwInterceptor T :=
  let i := set_w writer i in
  let i := set_tx tx i in
  let i := set_statusCode StatusOK i in
  let i := set_proto proto i in
  let i := set_size notWritten i in
  let i := set_isWriteHeaderFlush false i in
  set_wroteHeader false i.

Definition overrideWriteHeader (statusCode : Z) (m : Mem T) : Mem T :=
  let m := upd (set_statusCode statusCode) m in
  upd (set_size 0) m.

Definition flushWriteHeader (m : Mem T) : Mem T :=
  if negb (isWriteHeaderFlush (icpt m)) then
    let m := upd (fun i => set_w (down_WriteHeader (statusCode i) (w i)) i) m in
    upd (set_isWriteHeaderFlush true) m
  else m.

(** [w.w.Header()...]: the header map belongs to the downstream writer. *)
Definition on_header (f : http_Header -> http_Header) (m : Mem T) : Mem T :=
  upd (fun i => set_w (set_header (f (header (w i))) (w i)) i) m.

(** [for k := range h { h.Del(k) }]: one [Del] per key the map had.  A key
    the loop has already removed is deleted once more here, to no effect. *)
Definition cleanHeaders (m : Mem T) : Mem T :=
  on_header (fun h => foldl (fun h k => Header_Del k h) h (range h).*1) m.

(** The verdict branch shared by [WriteHeader], [Write] and
    [processResponse]: clean the headers and force [Content-Length: 0]. *)
Definition blank_headers (m : Mem T) : Mem T :=
  let m := cleanHeaders m in
  on_header (Header_Set "Content-Length" "0") m.

Definition add_response_headers (h : http_Header) (tx : Session T) : Session T :=
  foldl (fun tx kvv => foldl (fun tx v => AddResponseHeader kvv.1 v tx) tx kvv.2) tx (range h).

Definition WriteHeader (code : Z) (m : Mem T) : Mem T :=
  if wroteHeader (icpt m) then
    {| icpt := icpt m; stdlog := stdlog m ++ [SuperfluousWriteHeader] |}
  else
    let m := upd (fun i => set_tx (add_response_headers (header (w i)) (tx i)) i) m in
    let m := upd (set_statusCode code) m in
    let m := upd (set_size 0) m in
    let r := ProcessResponseHeaders code (proto (icpt m)) (tx (icpt m)) in
    let m := upd (set_tx r.2) m in
    match r.1 with
    | Some it =>
        let m := blank_headers m in
        let m := upd (fun i =>
          set_statusCode (obtainStatusCodeFromInterruptionOrDefault it (statusCode i)) i) m in
        flushWriteHeader m
    | None => upd (set_wroteHeader true) m
    end.

Definition Write (b : list byte) (m : Mem T) : (Z * option error) * Mem T :=
  if IsInterrupted (tx (icpt m)) then ((0, None), m)
  else
    let m := if negb (wroteHeader (icpt m)) then WriteHeader StatusOK m else m in
    if IsResponseBodyAccessible (tx (icpt m)) && IsResponseBodyProcessable (tx (icpt m)) then
      let r := WriteResponseBody b (tx (icpt m)) in
      let '(it, n, err) := r.1 in
      let m := upd (set_tx r.2) m in
      match it with
      | Some it =>
          let m := blank_headers m in
          let m := overrideWriteHeader
            (obtainStatusCodeFromInterruptionOrDefault it (statusCode (icpt m))) m in
          let m := flushWriteHeader m in
          ((0, None), m)
      | None =>
          let m := upd (fun i => set_size (wrap64 (size i + n)) i) m in
          ((n, err), m)
      end
    else
      let m := flushWriteHeader m in
      let r := down_Write b (w (icpt m)) in
      let '(n, err) := r.1 in
      let m := upd (set_w r.2) m in
      let m := upd (fun i => set_size (wrap64 (size i + n)) i) m in
      ((n, err), m).

(** [io.WriteString(onlyWrite{w}, s)]: [onlyWrite] has no [WriteString],
    so the string goes through [Write] as bytes. *)
Definition WriteString (s : string) (m : Mem T) : (Z * option error) * Mem T :=
  Write (list_byte_of_string s) m.

(** [io.CopyBuffer(onlyWrite{w}, src, buf)]: [onlyWrite] hides [ReadFrom],
    so the copy is the generic loop over [Write]. *)
Definition ReadFrom (src : Reader) (m : Mem T) : (Z * option error) * Mem T :=
  io_Copy Write src m.

Definition FlushError (m : Mem T) : option error * Mem T :=
  let m := if negb (wroteHeader (icpt m)) then WriteHeader StatusOK m else m in
  (None, m).

(** ** coraza.go: the response phase driver

    [processResponse(tx, i)] is called with the transaction the
    interceptor was reset with: [tx] and [i.tx] are one object.  The body
    [io.Copy] hands to [i.w] is recorded as the writes that deliver it. *)
Definition processResponse (m : Mem T) : option error * Mem T :=
  if IsInterrupted (tx (icpt m)) then (None, m)
  else if IsResponseBodyAccessible (tx (icpt m)) && IsResponseBodyProcessable (tx (icpt m))
  then
    let r := ProcessResponseBody (tx (icpt m)) in
    let '(it, err) := r.1 in
    let m := upd (set_tx r.2) m in
    match err, it with
    | Some e, _ =>
        let m := overrideWriteHeader StatusInternalServerError m in
        let m := flushWriteHeader m in
        (Some e, m)
    | None, Some it =>
        let m := blank_headers m in
        let m := overrideWriteHeader
          (obtainStatusCodeFromInterruptionOrDefault it (statusCode (icpt m))) m in
        let m := flushWriteHeader m in
        (None, m)
    | None, None =>
        match ResponseBodyReader (tx (icpt m)) with
        | inl e =>
            let m := overrideWriteHeader StatusInternalServerError m in
            let m := flushWriteHeader m in
            (Some ("failed to release the response body reader: " +:+ e), m)
        | inr reader =>
            let m := flushWriteHeader m in
            let r := io_Copy down_Write reader (w (icpt m)) in
            let m := upd (set_w r.2) m in
            match r.1.2 with
            | Some e => (Some ("failed to copy the response body: " +:+ e), m)
            | None => (None, m)
            end
        end
    end
  else
    let m := flushWriteHeader m in
    (None, m).
End Interceptor.

(** ** The downstream handler

    What a handler does with the writer it is given, as the sequence of the
    calls it makes.  [OpHeaderAssign] and [OpHeaderDelete] are the direct map
    operations [w.Header()[k] = vs] and [delete(w.Header(), k)].  [Push],
    [Hijack] and the deadline setters are forwarded as they are and touch
    neither the interceptor nor the calls recorded here; they are left out. *)
Inductive HandlerOp :=
| OpWriteHeader (code : Z)
| OpWrite (b : list byte)
| OpWriteString (s : string)
| OpReadFrom (src : Reader)
| OpFlushError
| OpHeaderSet (k v : string)
| OpHeaderAdd (k v : string)
| OpHeaderDel (k : string)
| OpHeaderAssign (k : string) (vs : list string)
| OpHeaderDelete (k : string).

Inductive OpResult :=
| RDone
| RWritten (n : Z) (err : option error)
| RFlushed (err : option error).

Definition header_op (op : HandlerOp) (h : http_Header) : http_Header :=
  match op with
  | OpHeaderSet k v => Header_Set k v h
  | OpHeaderAdd k v => Header_Add k v h
  | OpHeaderDel k => Header_Del k h
  | OpHeaderAssign k vs => <[k := vs]> h
  | OpHeaderDelete k => delete k h
  | _ => h
  end.

(** [next]: the calls of the handler, and whether it ends in a panic. *)
Record Handler := {
  script : list HandlerOp;
  panics : bool
}.

Section Handlers.
Context {T : Type} `{Engine T} `{Wire}.

(** One call on the interceptor. *)
Definition call (op : HandlerOp) (m : Mem T) : OpResult * Mem T :=
  match op with
  | OpWriteHeader code => (RDone, WriteHeader code m)
  | OpWrite b => let r := Write b m in (RWritten r.1.1 r.1.2, r.2)
  | OpWriteString s => let r := WriteString s m in (RWritten r.1.1 r.1.2, r.2)
  | OpReadFrom src => let r := ReadFrom src m in (RWritten r.1.1 r.1.2, r.2)
  | OpFlushError => let r := FlushError m in (RFlushed r.1, r.2)
  | _ => (RDone, on_header (header_op op) m)
  end.

Fixpoint serve (ops : list HandlerOp) (m : Mem T) : list OpResult * Mem T :=
  match ops with
  | [] => ([], m)
  | op :: rest =>
      let r := call op m in
      let rs := serve rest r.2 in
      (r.1 :: rs.1, rs.2)
  end.

(** One call on the router's own writer (the pass-through path). *)
Definition call_direct (op : HandlerOp) (rw : ResponseWriter) : ResponseWriter :=
  match op with
  | OpWriteHeader code => down_WriteHeader code rw
  | OpWrite b => (down_Write b rw).2
  | OpWriteString s => (down_Write (list_byte_of_string s) rw).2
  | OpReadFrom src => (io_Copy down_Write src rw).2
  | OpFlushError => record EvFlush rw
  | _ => set_header (header_op op (header rw)) rw
  end.

Definition serve_direct (ops : list HandlerOp) (rw : ResponseWriter) : ResponseWriter :=
  foldl (fun rw op => call_direct op rw) rw ops.

(** Any activity on the interceptor during one request: the handler's
    calls, and the package's own [flushWriteHeader] and [processResponse]. *)
Inductive Step :=
| Handle (op : HandlerOp)
| Flush
| Drive.

Definition step (s : Step) (m : Mem T) : Mem T :=
  match s with
  | Handle op => (call op m).2
  | Flush => flushWriteHeader m
  | Drive => (processResponse m).2
  end.

Definition steps (l : list Step) (m : Mem T) : Mem T := foldl (fun m s => step s m) m l.
End Handlers.

(** ** coraza.go: the request phase driver *)

Inductive ReqBody :=
| BodyNil
| NoBody
| BodyOf (r : Reader).

(** The fields of [http.Request] the package reads; [URL] is
    [req.URL.String()], [TransferEncoding] is [None] for a nil slice. *)
Record Request := {
  RemoteAddr : string;
  URL : string;
  Method : string;
  Proto : string;
  Header : http_Header;
  Host : string;
  TransferEncoding : option (list string);
  Body : ReqBody
}.

Definition set_Body (b : ReqBody) (req : Request) : Request :=
  {| RemoteAddr := RemoteAddr req; URL := URL req; Method := Method req; Proto := Proto req;
     Header := Header req; Host := Host req; TransferEncoding := TransferEncoding req;
     Body := b |}.

(** A call either returns or panics. *)
Inductive Outcome (A : Type) :=
| Returned (a : A)
| Panicked (reason : string).
Arguments Returned {A}.
Arguments Panicked {A}.

Section Drivers.
Context {T : Type} `{Engine T} `{Wire}.

Definition add_request_headers (h : http_Header) (tx : Session T) : Session T :=
  foldl (fun tx kvr => foldl (fun tx v => AddRequestHeader kvr.1 v tx) tx kvr.2) tx (range h).

(** From [tx.ProcessRequestHeaders()] to the end of [processRequest]. *)
Definition request_phases (tx : Session T) (req : Request)
  : Outcome (option Interruption * option error) * Session T * Request :=
  let r := ProcessRequestHeaders tx in
  let tx := r.2 in
  match r.1 with
  | Some it => (Returned (Some it, None), tx, req)
  | None =>
      match IsRequestBodyAccessible tx, Body req with
      | true, BodyOf body =>
          let r := ReadRequestBodyFrom body tx in
          let '(it, _, err, rest) := r.1 in
          let tx := r.2 in
          let req := set_Body (BodyOf rest) req in
          match err, it with
          | Some e, _ =>
              (Returned (None, Some ("failed to append request body: " +:+ e)), tx, req)
          | None, Some it => (Returned (Some it, None), tx, req)
          | None, None =>
              match RequestBodyReader tx with
              | inl e =>
                  (Returned (None, Some ("failed to get the request body: " +:+ e)), tx, req)
              | inr rbr =>
                  let req := set_Body (BodyOf (io_MultiReader rbr rest)) req in
                  let r := ProcessRequestBody tx in
                  (Returned r.1, r.2, req)
              end
          end
      | _, _ =>
          let r := ProcessRequestBody tx in
          (Returned r.1, r.2, req)
      end
  end.

Definition processRequest (tx : Session T) (req : Request)
  : Outcome (option Interruption * option error) * Session T * Request :=
  let idx := LastIndexByte (RemoteAddr req) ":" in
  let '(client, cport) :=
    if negb (idx =? -1)
    then (slice_to (RemoteAddr req) idx, (Atoi (slice_from (RemoteAddr req) (idx + 1))).1)
    else ("", 0) in
  let tx := ProcessConnection client cport "" 0 tx in
  let tx := ProcessURI (URL req) (Method req) (Proto req) tx in
  let tx := add_request_headers (Header req) tx in
  let tx :=
    if negb (String.eqb (Host req) "")
    then SetServerName (Host req) (AddRequestHeader "Host" (Host req) tx)
    else tx in
  match TransferEncoding req with
  | Some [] => (Panicked "runtime error: index out of range [0] with length 0", tx, req)
  | Some (te :: _) => request_phases (AddRequestHeader "Transfer-Encoding" te tx) req
  | None => request_phases tx req
  end.

(** ** coraza.go: the middleware *)

(** The deferred function of [Intercept]. *)
Definition finalize (tx : Session T) : Session T :=
  let tx := ProcessLogging tx in
  let r := Close tx in
  match r.1 with
  | Some err => DebugError (Some err) "Failed to close the transaction" r.2
  | None => r.2
  end.

(** How one run of the middleware leaves the world. *)
Record Exit := {
  x_writer : ResponseWriter;
  x_tx : Session T;
  x_request : Request;
  x_pool : option (rwInterceptor T);
  x_stdlog : list LogLine;
  x_next_called : bool;
  x_panicked : bool
}.

(** [fresh] is the state of the transaction [newTX] creates, [writer] is
    [c.Writer()], [pooled] is what [p.Get()] hands out.  The deferred calls
    run last on every path, also when [next] or [processRequest] panics;
    the interceptor goes back to the pool referring to the transaction,
    which is finalised after it. *)
Definition Intercept (next : Handler) (fresh : T) (writer : ResponseWriter) (req : Request)
    (pooled : rwInterceptor T) (log : list LogLine) : Exit :=
  let txn := NewTransaction fresh in
  if IsRuleEngineOff txn then
    {| x_writer := serve_direct (script next) writer; x_tx := finalize txn;
       x_request := req; x_pool := None; x_stdlog := log;
       x_next_called := true; x_panicked := panics next |}
  else
    let '(out, txn, req) := processRequest txn req in
    match out with
    | Panicked _ =>
        {| x_writer := writer; x_tx := finalize txn; x_request := req; x_pool := None;
           x_stdlog := log; x_next_called := false; x_panicked := true |}
    | Returned (_, Some err) =>
        let txn := DebugError (Some err) "Failed to process request" txn in
        {| x_writer := writer; x_tx := finalize txn; x_request := req; x_pool := None;
           x_stdlog := log; x_next_called := false; x_panicked := false |}
    | Returned (Some it, None) =>
        let writer :=
          down_WriteHeader (obtainStatusCodeFromInterruptionOrDefault it StatusOK) writer in
        {| x_writer := writer; x_tx := finalize txn; x_request := req; x_pool := None;
           x_stdlog := log; x_next_called := false; x_panicked := false |}
    | Returned (None, None) =>
        let interceptor := reset txn writer (Proto req) pooled in
        let m := (serve (script next) {| icpt := interceptor; stdlog := log |}).2 in
        let m :=
          if panics next then m
          else
            let r := processResponse m in
            match r.1 with
            | Some err =>
                upd (fun i => set_tx (DebugError (Some err) "Failed to close the response" (tx i)) i) r.2
            | None => r.2
            end in
        let txn := finalize (tx (icpt m)) in
        {| x_writer := w (icpt m); x_tx := txn; x_request := req;
           x_pool := Some (set_tx txn (icpt m)); x_stdlog := stdlog m;
           x_next_called := true; x_panicked := panics next |}
    end.
End Drivers.
Arguments Exit : clear implicits.

(** ** A test double for the engine

    A scripted transaction in the manner of a collaborator stub: the
    verdicts it gives at each phase are fixed up front, a verdict once given
    stands, and response bytes are appended to a buffer. *)
Record Stub := {
  rule_engine_off : bool;
  standing : option Interruption;
  request_verdict : option Interruption;
  request_body_access : bool;
  response_body_access : bool;
  header_verdict : option Interruption;
  write_verdict : option Interruption;
  body_verdict : option Interruption;
  body_failure : option error;
  close_failure : option error;
  buffered : list byte
}.

Definition stand (v : option Interruption) (s : Stub) : Stub :=
  {| rule_engine_off := rule_engine_off s;
     standing := match standing s with Some it => Some it | None => v end;
     request_verdict := request_verdict s; request_body_access := request_body_access s;
     response_body_access := response_body_access s; header_verdict := header_verdict s;
     write_verdict := write_verdict s; body_verdict := body_verdict s;
     body_failure := body_failure s; close_failure := close_failure s;
     buffered := buffered s |}.

Definition buffer (b : list byte) (s : Stub) : Stub :=
  {| rule_engine_off := rule_engine_off s; standing := standing s;
     request_verdict := request_verdict s; request_body_access := request_body_access s;
     response_body_access := response_body_access s; header_verdict := header_verdict s;
     write_verdict := write_verdict s; body_verdict := body_verdict s;
     body_failure := body_failure s; close_failure := close_failure s;
     buffered := buffered s ++ b |}.

#[global] Instance stub_engine : Engine Stub := {|
  eProcessConnection _ _ _ _ s := s;
  eProcessURI _ _ _ s := s;
  eAddRequestHeader _ _ s := s;
  eSetServerName _ s := s;
  eProcessRequestHeaders s := (request_verdict s, stand (request_verdict s) s);
  eIsRequestBodyAccessible s := request_body_access s;
  eReadRequestBodyFrom r s := ((None, 0, None, r), s);
  eRequestBodyReader s := inr {| chunks := []; read_err := None |};
  eProcessRequestBody s := ((None, None), s);
  eIsRuleEngineOff s := rule_engine_off s;
  eIsInterrupted s := match standing s with Some _ => true | None => false end;
  eAddResponseHeader _ _ s := s;
  eProcessResponseHeaders _ _ s := (header_verdict s, stand (header_verdict s) s);
  eIsResponseBodyAccessible s := response_body_access s;
  eIsResponseBodyProcessable s := response_body_access s;
  eWriteResponseBody b s :=
    match write_verdict s with
    | Some it => ((Some it, 0, None), stand (Some it) s)
    | None => ((None, blen b, None), buffer b s)
    end;
  eProcessResponseBody s :=
    match body_failure s with
    | Some e => ((None, Some e), s)
    | None => ((body_verdict s, None), stand (body_verdict s) s)
    end;
  eResponseBodyReader s := inr {| chunks := [buffered s]; read_err := None |};
  eProcessLogging s := s;
  eClose s := (close_failure s, s)
|}.

(** A connection on which every write succeeds in full. *)
#[global] Instance sound_wire : Wire := {| wire_write _ b := (blen b, None) |}.

Definition deny : Interruption :=
  {| RuleID := 930110; Action := "deny"; Status := 0; Data := "" |}.

(** An engine that inspects response bodies and raises no verdict. *)
Definition quiet_stub : Stub :=
  {| rule_engine_off := false; standing := None; request_verdict := None;
     request_body_access := false; response_body_access := true;
     header_verdict := None; write_verdict := None; body_verdict := None;
     body_failure := None; close_failure := None; buffered := [] |}.

Definition blank_writer : ResponseWriter := {| header := ∅; events := [] |}.

Definition blank_interceptor : rwInterceptor Stub :=
  {| w := blank_writer; tx := NewTransaction quiet_stub; proto := ""; statusCode := 0;
     size := 0; isWriteHeaderFlush := false; wroteHeader := false |}.

Definition get_request (remote : string) : Request :=
  {| RemoteAddr := remote; URL := "/hello/fox?path=../foo"; Method := "GET";
     Proto := "HTTP/1.1"; Header := {["Accept" := ["*/*"]]}; Host := "localhost:8080";
     TransferEncoding := None; Body := NoBody |}.

(** ** What the downstream writer has seen *)

Definition status_lines (evs : list WEvent) : list Z :=
  omap (fun e => match e with EvWriteHeader c => Some c | _ => None end) evs.

Definition body_bytes (evs : list WEvent) : list byte :=
  List.concat (omap (fun e => match e with EvWrite b => Some b | _ => None end) evs).

Definition is_logging (c : TxCall) : bool :=
  match c with CProcessLogging => true | _ => false end.

Definition is_close (c : TxCall) : bool :=
  match c with CClose => true | _ => false end.

Definition lifecycle (c : TxCall) : bool := is_logging c || is_close c.

(** The arguments of the first connection-phase call a transaction got. *)
Definition connection_args (cs : list TxCall) : option (string * Z * string * Z) :=
  match cs with
  | CProcessConnection client cport server sport :: _ => Some (client, cport, server, sport)
  | _ => None
  end.

(** Every key of the map is in canonical form, as it is when the map was
    filled through [Set] and [Add] only. *)
Definition canonical_keys (h : http_Header) : Prop :=
  forall k, is_Some (h !! k) -> CanonicalMIMEHeaderKey k = k.

Section Vocabulary.
Context {T : Type} `{Engine T} `{Wire}.

Definition seen (m : Mem T) : list WEvent := events (w (icpt m)).

Definition flushed (m : Mem T) : bool := isWriteHeaderFlush (icpt m).

Definition interrupted (m : Mem T) : bool := IsInterrupted (tx (icpt m)).

Definition inspected (m : Mem T) : bool :=
  IsResponseBodyAccessible (tx (icpt m)) && IsResponseBodyProcessable (tx (icpt m)).

(** The interceptor as [Intercept] sets it up for a request. *)
Definition fresh_mem (t : Session T) (writer : ResponseWriter) (proto : string)
    (pooled : rwInterceptor T) (log : list LogLine) : Mem T :=
  {| icpt := reset t writer proto pooled; stdlog := log |}.

(** How the record of the downstream writer may grow between two states:
    not at all while the status is deferred, by the status line first when it
    is flushed, and by body writes only after that. *)
Definition growth (before after : bool) (ext : list WEvent) : Prop :=
  match before, after with
  | false, false => ext = []
  | false, true => exists c bs, ext = EvWriteHeader c :: map EvWrite bs
  | true, true => exists bs, ext = map EvWrite bs
  | true, false => False
  end.

Definition advance (m m' : Mem T) : Prop :=
  exists ext, seen m' = seen m ++ ext /\ growth (flushed m) (flushed m') ext.

(** [t'] is [t] after some more calls, none of them the logging phase or
    the release. *)
Definition live (t t' : Session T) : Prop :=
  exists ext, calls t' = calls t ++ ext /\ Forall (fun c => lifecycle c = false) ext.

(** The engine's contract on verdicts, as far as the interceptor relies on
    it once a verdict stands: the response-header calls keep it standing. *)
Definition sticky : Prop :=
  forall t, eIsInterrupted t = true ->
    (forall k v, eIsInterrupted (eAddResponseHeader k v t) = true) /\
    (forall c p, eIsInterrupted (eProcessResponseHeaders c p t).2 = true).
End Vocabulary.

(** The stub with a verdict standing from the start, one for the
    response-header phase, one for the response-body phase, and a failure of
    the response-body phase. *)
Definition stub (standing header body : option Interruption) (failure : option error)
  : Stub :=
  {| rule_engine_off := false; standing := standing; request_verdict := None;
     request_body_access := false; response_body_access := true;
     header_verdict := header; write_verdict := None; body_verdict := body;
     body_failure := failure; close_failure := None; buffered := [] |}.

Definition abc : list byte := list_byte_of_string "abc".

(** The interceptor of a request served by [s] over an untouched writer. *)
Definition stub_mem (s : Stub) : Mem Stub :=
  fresh_mem (NewTransaction s) blank_writer "HTTP/1.1" blank_interceptor [].

(** A handler call that keeps the keys of the header map canonical: all but
    a direct assignment under a key that is not. *)
Definition keeps_canonical (op : HandlerOp) : Prop :=
  match op with
  | OpHeaderAssign k _ => CanonicalMIMEHeaderKey k = k
  | _ => True
  end.

Definition step_keeps_canonical (s : Step) : Prop :=
  match s with
  | Handle op => keeps_canonical op
  | _ => True
  end.

(** ** Traces and modes of operation *)

(** The calls that hand a header map to the engine: one per value, key by
    key in the order of the traversal. *)
Definition header_calls (mk : string -> string -> TxCall) (h : http_Header) : list TxCall :=
  flat_map (fun kv => map (mk kv.1) kv.2) (range h).

(** What [processRequest] tells the engine before the request-header
    phase. *)
Definition request_preamble (req : Request) : list TxCall :=
  let idx := LastIndexByte (RemoteAddr req) ":" in
  [CProcessConnection
     (if negb (idx =? -1) then slice_to (RemoteAddr req) idx else "")
     (if negb (idx =? -1) then (Atoi (slice_from (RemoteAddr req) (idx + 1))).1 else 0)
     "" 0;
   CProcessURI (URL req) (Method req) (Proto req)] ++
  header_calls CAddRequestHeader (Header req) ++
  (if negb (String.eqb (Host req) "")
   then [CAddRequestHeader "Host" (Host req); CSetServerName (Host req)] else []) ++
  match TransferEncoding req with
  | Some (te :: _) => [CAddRequestHeader "Transfer-Encoding" te]
  | _ => []
  end.

(** The same calls for the entries of a header map taken in a given order.
    Go leaves the order in which [range] visits a map unspecified; a trace
    stated over some permutation of the entries does not depend on it. *)
Definition header_calls_of (mk : string -> string -> TxCall)
    (entries : list (string * list string)) : list TxCall :=
  flat_map (fun kv => map (mk kv.1) kv.2) entries.

Definition request_preamble_of (entries : list (string * list string)) (req : Request)
  : list TxCall :=
  let idx := LastIndexByte (RemoteAddr req) ":" in
  [CProcessConnection
     (if negb (idx =? -1) then slice_to (RemoteAddr req) idx else "")
     (if negb (idx =? -1) then (Atoi (slice_from (RemoteAddr req) (idx + 1))).1 else 0)
     "" 0;
   CProcessURI (URL req) (Method req) (Proto req)] ++
  header_calls_of CAddRequestHeader entries ++
  (if negb (String.eqb (Host req) "")
   then [CAddRequestHeader "Host" (Host req); CSetServerName (Host req)] else []) ++
  match TransferEncoding req with
  | Some (te :: _) => [CAddRequestHeader "Transfer-Encoding" te]
  | _ => []
  end.


Definition nonempty (c : list byte) : bool := negb (blen c =? 0).

Section Modes.
Context {T : Type} `{Engine T} `{Wire}.

(** The header is recorded and the body goes straight to the writer. *)
Definition passes_through (m : Mem T) : Prop :=
  wroteHeader (icpt m) = true /\ interrupted m = false /\ inspected m = false.

(** From the state [e] on, the engine takes the chunks [bs] one after the
    other into its response buffer without a verdict. *)
Fixpoint buffers (e : T) (bs : list (list byte)) : Prop :=
  match bs with
  | [] => True
  | b :: rest =>
      eIsInterrupted e = false /\
      eIsResponseBodyAccessible e && eIsResponseBodyProcessable e = true /\
      (eWriteResponseBody b e).1.1.1 = None /\
      buffers (eWriteResponseBody b e).2 rest
  end.

(** A connection on which every write succeeds in full. *)
Definition sound_writes : Prop := forall rw b, wire_write rw b = (blen b, None).

End Modes.

(** ** More test doubles *)

(** The stub for a response that is not inspected. *)
Definition plain_stub : Stub :=
  {| rule_engine_off := false; standing := None; request_verdict := None;
     request_body_access := false; response_body_access := false;
     header_verdict := None; write_verdict := None; body_verdict := None;
     body_failure := None; close_failure := None; buffered := [] |}.

(** The stub for a response that is not inspected and that the
    response-header phase blocks. *)
Definition header_blocking_stub : Stub :=
  {| rule_engine_off := false; standing := None; request_verdict := None;
     request_body_access := false; response_body_access := false;
     header_verdict := Some deny; write_verdict := None; body_verdict := None;
     body_failure := None; close_failure := None; buffered := [] |}.

(** A writer on which the handler has staged two cookies. *)
Definition cookie_writer : ResponseWriter :=
  {| header := {["Set-Cookie" := ["a=1"; "b=2"]]}; events := [] |}.

(** The stub that blocks every request at the request-header phase. *)
Definition blocking_stub : Stub :=
  {| rule_engine_off := false; standing := None; request_verdict := Some deny;
     request_body_access := false; response_body_access := true;
     header_verdict := None; write_verdict := None; body_verdict := None;
     body_failure := None; close_failure := None; buffered := [] |}.

(** An engine that inspects response bodies, raises no verdict and cannot
    hand out its buffer. *)
Inductive Sealed := sealed.

#[global] Instance sealed_engine : Engine Sealed := {|
  eProcessConnection _ _ _ _ s := s;
  eProcessURI _ _ _ s := s;
  eAddRequestHeader _ _ s := s;
  eSetServerName _ s := s;
  eProcessRequestHeaders s := (None, s);
  eIsRequestBodyAccessible _ := false;
  eReadRequestBodyFrom r s := ((None, 0, None, r), s);
  eRequestBodyReader _ := inl "buffer closed";
  eProcessRequestBody s := ((None, None), s);
  eIsRuleEngineOff _ := false;
  eIsInterrupted _ := false;
  eAddResponseHeader _ _ s := s;
  eProcessResponseHeaders _ _ s := (None, s);
  eIsResponseBodyAccessible _ := true;
  eIsResponseBodyProcessable _ := true;
  eWriteResponseBody b s := ((None, blen b, None), s);
  eProcessResponseBody s := ((None, None), s);
  eResponseBodyReader _ := inl "buffer closed";
  eProcessLogging s := s;
  eClose s := (None, s)
|}.

(** * Properties *)

Section Properties.
Context {T : Type} `{Engine T} `{Wire}.

Local Abbreviation session m := (tx (icpt m)) (only parsing).

(** ** The record of the downstream writer only advances *)

Lemma advance_refl (m : Mem T) : advance m m.
Proof.
  exists []. split; [by rewrite app_nil_r|].
  unfold growth. destruct (flushed m); [by exists []|done].
Qed.

Lemma advance_trans (m1 : Mem T) (m2 : Mem T) (m3 : Mem T) : advance m1 m2 -> advance m2 m3 -> advance m1 m3.
Proof.
  intros (e1 & E1 & G1) (e2 & E2 & G2). exists (e1 ++ e2).
  split; [by rewrite E2, E1, app_assoc|].
  unfold growth in *.
  destruct (flushed m1), (flushed m2), (flushed m3); try done;
    repeat match goal with
           | G : exists _, _ |- _ => destruct G as [? G]
           end; subst; cbn; rewrite <- ?map_app, ?app_nil_r; eauto.
Qed.

(** A step that leaves the flag and the record alone. *)
Lemma advance_same (m : Mem T) (m' : Mem T) :
  flushed m' = flushed m -> seen m' = seen m -> advance m m'.
Proof.
  intros Hf Hs. unfold advance. rewrite Hf, Hs. apply advance_refl.
Qed.

Lemma flushWriteHeader_flushed (m : Mem T) : flushed (flushWriteHeader m) = true.
Proof. unfold flushWriteHeader, flushed. by destruct (isWriteHeaderFlush (icpt m)) eqn:E. Qed.

Lemma flushWriteHeader_seen (m : Mem T) :
  seen (flushWriteHeader m) =
  if flushed m then seen m else seen m ++ [EvWriteHeader (statusCode (icpt m))].
Proof. unfold flushWriteHeader, flushed, seen. by destruct (isWriteHeaderFlush (icpt m)). Qed.

Lemma flushWriteHeader_guard (m : Mem T) : flushed m = true -> flushWriteHeader m = m.
Proof. unfold flushWriteHeader, flushed. by intros ->. Qed.

Lemma flushWriteHeader_idempotent (m : Mem T) :
  flushWriteHeader (flushWriteHeader m) = flushWriteHeader m.
Proof. apply flushWriteHeader_guard, flushWriteHeader_flushed. Qed.

Lemma advance_flush (m : Mem T) : advance m (flushWriteHeader m).
Proof.
  unfold advance. rewrite flushWriteHeader_seen, flushWriteHeader_flushed.
  destruct (flushed m) eqn:E.
  - exists []. split; [by rewrite app_nil_r|]. by exists [].
  - eexists. split; [done|]. by exists (statusCode (icpt m)), [].
Qed.

Lemma WriteHeader_seen code (m : Mem T) :
  (flushed (WriteHeader code m) = flushed m /\ seen (WriteHeader code m) = seen m) \/
  (flushed m = false /\ flushed (WriteHeader code m) = true /\
   exists c, seen (WriteHeader code m) = seen m ++ [EvWriteHeader c]).
Proof.
  unfold WriteHeader. destruct (wroteHeader (icpt m)); [by left|].
  destruct (ProcessResponseHeaders _ _ _).1; [|by left].
  rewrite flushWriteHeader_flushed, flushWriteHeader_seen.
  destruct m as [[w0 tx0 p sc sz [] wr] lg]; cbn; [by left|].
  right. eauto.
Qed.

Lemma advance_WriteHeader code (m : Mem T) : advance m (WriteHeader code m).
Proof.
  destruct (WriteHeader_seen code m) as [[Hf Hs]|(Hf & Hf' & c & Hs)].
  - by apply advance_same.
  - exists [EvWriteHeader c]. split; [done|]. rewrite Hf, Hf'. by exists c, [].
Qed.

Lemma advance_body (m : Mem T) (m' : Mem T) bs :
  flushed m = true -> flushed m' = true -> seen m' = seen m ++ map EvWrite bs ->
  advance m m'.
Proof. intros Hf Hf' Hs. exists (map EvWrite bs). rewrite Hf, Hf'. split; [done|by exists bs]. Qed.

Lemma advance_Write b (m : Mem T) : advance m (Write b m).2.
Proof.
  unfold Write. destruct (IsInterrupted _); [apply advance_refl|].
  set (m1 := if negb (wroteHeader (icpt m)) then WriteHeader StatusOK m else m).
  assert (advance m m1) as A1.
  { subst m1. destruct (negb _); [apply advance_WriteHeader|apply advance_refl]. }
  eapply advance_trans; [exact A1|]. clearbody m1. clear A1.
  destruct (_ && _).
  - destruct (WriteResponseBody b (tx (icpt m1))) as [[[it n] err] tx'] eqn:E. cbn.
    destruct it as [it|]; cbn.
    + eapply advance_trans; [|apply advance_flush]. by apply advance_same.
    + by apply advance_same.
  - eapply advance_trans; [apply advance_flush|].
    destruct (down_Write b _) as [[n err] w'] eqn:E. cbn.
    apply advance_body with (bs := [b]).
    + apply flushWriteHeader_flushed.
    + cbn. apply flushWriteHeader_flushed.
    + unfold down_Write in E. injection E as _ <-. done.
Qed.

Lemma advance_copy (write : list byte -> Mem T -> (Z * option error) * Mem T) :
  (forall b m, advance m (write b m).2) ->
  forall cs rerr n m, advance m (copy_chunks write cs rerr n m).2.
Proof.
  intros Hw cs rerr. induction cs as [|c cs IH]; intros n m; cbn; [apply advance_refl|].
  destruct (blen c =? 0); [apply IH|].
  specialize (Hw c m). destruct (write c m) as [[nw ew] m'].
  destruct (_ || _); cbn.
  - done.
  - destruct ew; cbn; [done|]. destruct (negb _); cbn; [done|].
    eapply advance_trans; [exact Hw|apply IH].
Qed.

Lemma advance_ReadFrom src (m : Mem T) : advance m (ReadFrom src m).2.
Proof. apply advance_copy, advance_Write. Qed.

Lemma advance_FlushError (m : Mem T) : advance m (FlushError m).2.
Proof.
  unfold FlushError. cbn. destruct (negb _); [apply advance_WriteHeader|apply advance_refl].
Qed.

Lemma advance_call op (m : Mem T) : advance m (call op m).2.
Proof.
  destruct op; cbn; try (by apply advance_same).
  - apply advance_WriteHeader.
  - apply advance_Write.
  - apply advance_Write.
  - apply advance_ReadFrom.
  - apply advance_FlushError.
Qed.

(** Copying straight to the downstream writer only adds body writes. *)
Lemma copy_down_events cs rerr n rw :
  exists bs, events (copy_chunks down_Write cs rerr n rw).2 = events rw ++ map EvWrite bs.
Proof.
  revert n rw. induction cs as [|c cs IH]; intros n rw; cbn.
  - exists []. by rewrite app_nil_r.
  - destruct (blen c =? 0); [apply IH|].
    destruct (wire_write rw c) as [nw ew].
    assert (events (record (EvWrite c) rw) = events rw ++ map EvWrite [c]) as E by done.
    destruct (_ || _); cbn; [by exists [c]|].
    destruct ew; cbn; [by exists [c]|]. destruct (negb _); cbn; [by exists [c]|].
    destruct (IH (wrap64 (n + nw)) (record (EvWrite c) rw)) as [bs ->].
    exists (c :: bs). rewrite E. cbn. by rewrite <- app_assoc.
Qed.

Lemma advance_processResponse (m : Mem T) : advance m (processResponse m).2.
Proof.
  unfold processResponse. destruct (IsInterrupted _); [apply advance_refl|].
  destruct (_ && _); [|apply advance_flush].
  destruct (ProcessResponseBody _) as [[it err] tx'] eqn:E. cbn.
  destruct err as [e|]; cbn.
  { eapply advance_trans; [|apply advance_flush]. by apply advance_same. }
  destruct it as [it|]; cbn.
  { eapply advance_trans; [|apply advance_flush]. by apply advance_same. }
  destruct (ResponseBodyReader _) as [e|reader]; cbn.
  { eapply advance_trans; [|apply advance_flush]. by apply advance_same. }
  apply advance_trans with (upd (set_tx tx') m); [by apply advance_same|].
  apply advance_trans with (flushWriteHeader (upd (set_tx tx') m)); [apply advance_flush|].
  set (m1 := flushWriteHeader (upd (set_tx tx') m)).
  destruct (copy_down_events (chunks reader) (read_err reader) 0 (w (icpt m1))) as [bs Hbs].
  assert (flushed m1 = true) as F1 by apply flushWriteHeader_flushed.
  unfold io_Copy. destruct (copy_chunks _ _ _ _ _) as [[n err] w'] eqn:Ec. cbn in *.
  destruct err; cbn; by apply advance_body with (bs := bs).
Qed.

Lemma advance_step s (m : Mem T) : advance m (step s m).
Proof.
  destruct s; cbn.
  - apply advance_call.
  - apply advance_flush.
  - apply advance_processResponse.
Qed.

Lemma advance_steps l (m : Mem T) : advance m (steps l m).
Proof.
  revert m. induction l as [|s l IH]; intros m; cbn; [apply advance_refl|].
  eapply advance_trans; [apply advance_step|apply IH].
Qed.

Lemma serve_steps ops (m : Mem T) : (serve ops m).2 = steps (map Handle ops) m.
Proof. revert m. induction ops as [|op ops IH]; intros m; cbn; [done|apply IH]. Qed.


(** ** The transaction stays live until the deferred call *)

Lemma live_refl (t : Session T) : live t t.
Proof. exists []. by rewrite app_nil_r. Qed.

Lemma live_trans (t1 : Session T) (t2 : Session T) (t3 : Session T) : live t1 t2 -> live t2 t3 -> live t1 t3.
Proof.
  intros (e1 & E1 & F1) (e2 & E2 & F2). exists (e1 ++ e2).
  split; [by rewrite E2, E1, app_assoc|by apply Forall_app].
Qed.

Lemma live_invoke_ c e (t : Session T) : lifecycle c = false -> live t (invoke_ c e t).
Proof. intros Hc. exists [c]. split; [done|by constructor]. Qed.

Lemma live_invoke {A} c (r : A * T) t : lifecycle c = false -> live t (invoke c r t).2.
Proof. intros Hc. exists [c]. split; [done|by constructor]. Qed.

Lemma live_DebugError err msg (t : Session T) : live t (DebugError err msg t).
Proof. exists []. by rewrite app_nil_r. Qed.

Lemma live_foldl {A} (f : Session T -> A -> Session T) l :
  (forall t a, live t (f t a)) -> forall t, live t (foldl f t l).
Proof.
  intros Hf. induction l as [|a l IH]; intros t; cbn; [apply live_refl|].
  eapply live_trans; [apply Hf|apply IH].
Qed.

Lemma live_add_response_headers h (t : Session T) : live t (add_response_headers h t).
Proof.
  apply live_foldl. intros t' kv. apply live_foldl. intros t'' v. by apply live_invoke_.
Qed.

Lemma live_add_request_headers h (t : Session T) : live t (add_request_headers h t).
Proof.
  apply live_foldl. intros t' kv. apply live_foldl. intros t'' v. by apply live_invoke_.
Qed.

Lemma flushWriteHeader_session (m : Mem T) : session (flushWriteHeader m) = session m.
Proof. unfold flushWriteHeader. by destruct (negb _). Qed.

Lemma live_WriteHeader code (m : Mem T) : live (session m) (session (WriteHeader code m)).
Proof.
  unfold WriteHeader. destruct (wroteHeader _); [apply live_refl|].
  apply live_trans with (add_response_headers (header (w (icpt m))) (session m));
    [apply live_add_response_headers|].
  match goal with |- context [ProcessResponseHeaders ?c ?p ?t] =>
    pose proof (live_invoke (CProcessResponseHeaders c p)
                  (eProcessResponseHeaders c p (engine t)) t eq_refl) as L;
    change (invoke _ _ t) with (ProcessResponseHeaders c p t) in L;
    destruct (ProcessResponseHeaders c p t) as [it t'] eqn:E
  end.
  cbn in *. destruct it; [rewrite flushWriteHeader_session|]; exact L.
Qed.

Lemma live_Write b (m : Mem T) : live (session m) (session (Write b m).2).
Proof.
  unfold Write. destruct (IsInterrupted _); [apply live_refl|].
  set (m1 := if negb (wroteHeader (icpt m)) then WriteHeader StatusOK m else m).
  apply live_trans with (session m1).
  { subst m1. destruct (negb _); [apply live_WriteHeader|apply live_refl]. }
  clearbody m1. destruct (_ && _).
  - pose proof (live_invoke (CWriteResponseBody b)
                  (eWriteResponseBody b (engine (tx (icpt m1)))) (tx (icpt m1)) eq_refl) as L.
    change (invoke _ _ _) with (WriteResponseBody b (tx (icpt m1))) in L.
    destruct (WriteResponseBody b (tx (icpt m1))) as [[[it n] err] t'] eqn:E. cbn in *.
    destruct it; cbn; [rewrite flushWriteHeader_session|]; exact L.
  - destruct (down_Write b _) as [[n err] w']. cbn.
    rewrite flushWriteHeader_session. apply live_refl.
Qed.

Lemma live_copy (write : list byte -> Mem T -> (Z * option error) * Mem T) :
  (forall b m, live (session m) (session (write b m).2)) ->
  forall cs rerr n m, live (session m) (session (copy_chunks write cs rerr n m).2).
Proof.
  intros Hw cs rerr. induction cs as [|c cs IH]; intros n m; cbn; [apply live_refl|].
  destruct (blen c =? 0); [apply IH|].
  specialize (Hw c m). destruct (write c m) as [[nw ew] m'].
  destruct (_ || _); cbn; [done|].
  destruct ew; cbn; [done|]. destruct (negb _); cbn; [done|].
  eapply live_trans; [exact Hw|apply IH].
Qed.

Lemma live_call op (m : Mem T) : live (session m) (session (call op m).2).
Proof.
  destruct op; cbn; try apply live_refl.
  - apply live_WriteHeader.
  - apply live_Write.
  - apply live_Write.
  - apply live_copy, live_Write.
  - unfold FlushError. destruct (negb _); [apply live_WriteHeader|apply live_refl].
Qed.

Lemma live_processResponse (m : Mem T) : live (session m) (session (processResponse m).2).
Proof.
  unfold processResponse. destruct (IsInterrupted _); [apply live_refl|].
  destruct (_ && _); [|cbn; rewrite flushWriteHeader_session; apply live_refl].
  pose proof (live_invoke CProcessResponseBody
                (eProcessResponseBody (engine (tx (icpt m)))) (tx (icpt m)) eq_refl) as L.
  change (invoke _ _ _) with (ProcessResponseBody (tx (icpt m))) in L.
  destruct (ProcessResponseBody _) as [[it err] t'] eqn:E. cbn in *.
  destruct err; cbn; [by rewrite flushWriteHeader_session|].
  destruct it; cbn; [by rewrite flushWriteHeader_session|].
  destruct (ResponseBodyReader _); cbn; [by rewrite flushWriteHeader_session|].
  destruct (io_Copy _ _ _) as [[n err] w']. cbn.
  destruct err; cbn; by rewrite flushWriteHeader_session.
Qed.

Lemma live_step s (m : Mem T) : live (session m) (session (step s m)).
Proof.
  destruct s; cbn.
  - apply live_call.
  - rewrite flushWriteHeader_session. apply live_refl.
  - apply live_processResponse.
Qed.

Lemma live_steps l (m : Mem T) : live (session m) (session (steps l m)).
Proof.
  revert m. induction l as [|s l IH]; intros m; cbn; [apply live_refl|].
  eapply live_trans; [apply live_step|apply IH].
Qed.

Lemma live_request_phases (t : Session T) req : live t (request_phases t req).1.2.
Proof.
  unfold request_phases.
  pose proof (live_invoke CProcessRequestHeaders (eProcessRequestHeaders (engine t)) t eq_refl) as L.
  change (invoke _ _ _) with (ProcessRequestHeaders t) in L.
  destruct (ProcessRequestHeaders t) as [it t1]. cbn [fst snd] in *.
  destruct it; [exact L|].
  assert (live t (ProcessRequestBody t1).2) as Lb.
  { eapply live_trans; [exact L|]. by apply live_invoke. }
  destruct (IsRequestBodyAccessible t1); [|exact Lb].
  destruct (Body req) as [| |body]; try exact Lb.
  pose proof (live_invoke CReadRequestBodyFrom
                (eReadRequestBodyFrom body (engine t1)) t1 eq_refl) as Lr.
  change (invoke _ _ _) with (ReadRequestBodyFrom body t1) in Lr.
  destruct (ReadRequestBodyFrom body t1) as [[[[it n] err] rest] t2]. cbn [fst snd] in *.
  assert (live t t2) as L2 by (eapply live_trans; [exact L|exact Lr]).
  destruct err; [exact L2|]. destruct it; [exact L2|].
  destruct (RequestBodyReader t2); [exact L2|]. cbn [fst snd].
  eapply live_trans; [exact L2|]. by apply live_invoke.
Qed.

(** The connection phase comes first, with the client and port taken from
    the remote address; what follows leaves the transaction live. *)
Lemma processRequest_connection (t : Session T) req :
  let idx := LastIndexByte (RemoteAddr req) ":" in
  let client := if negb (idx =? -1) then slice_to (RemoteAddr req) idx else "" in
  let cport :=
    if negb (idx =? -1) then (Atoi (slice_from (RemoteAddr req) (idx + 1))).1 else 0 in
  live (ProcessConnection client cport "" 0 t) (processRequest t req).1.2.
Proof.
  intros idx client cport. unfold processRequest. fold idx.
  replace (if negb (idx =? -1) then _ else _) with (client, cport)
    by (subst client cport; by destruct (negb _)).
  set (t1 := ProcessConnection client cport "" 0 t).
  set (t2 := ProcessURI _ _ _ t1).
  set (t3 := add_request_headers _ t2).
  set (t4 := if negb (String.eqb (Host req) "")
             then SetServerName (Host req) (AddRequestHeader "Host" (Host req) t3)
             else t3).
  assert (live t1 t4) as L4.
  { apply live_trans with t2; [by apply live_invoke_|].
    apply live_trans with t3; [apply live_add_request_headers|].
    subst t4. destruct (negb (String.eqb _ _)); [|apply live_refl].
    eapply live_trans; by apply live_invoke_. }
  clearbody t4. destruct (TransferEncoding req) as [[|te ?]|]; cbn [fst snd].
  - exact L4.
  - eapply live_trans; [exact L4|]. eapply live_trans; [|apply live_request_phases].
    by apply live_invoke_.
  - eapply live_trans; [exact L4|apply live_request_phases].
Qed.

Lemma live_processRequest (t : Session T) req : live t (processRequest t req).1.2.
Proof.
  eapply live_trans; [|apply processRequest_connection]. by apply live_invoke_.
Qed.

Lemma finalize_calls (t : Session T) : calls (finalize t) = calls t ++ [CProcessLogging; CClose].
Proof.
  unfold finalize. cbn. destruct (eClose _).1; cbn; by rewrite <- app_assoc.
Qed.

(** On every path the transaction the middleware leaves behind is one that
    was finalised at the very end. *)
Lemma Intercept_finalizes next fresh writer req pooled log :
  exists t, live (NewTransaction fresh) t /\
    x_tx (Intercept next fresh writer req pooled log) = finalize t.
Proof.
  unfold Intercept. destruct (IsRuleEngineOff _).
  { eexists. split; [apply live_refl|reflexivity]. }
  pose proof (live_processRequest (NewTransaction fresh) req) as L.
  destruct (processRequest _ req) as [[out t] req']. cbn in L.
  destruct out as [[[it|] [err|]]|reason].
  - eexists. split; [|reflexivity]. eapply live_trans; [exact L|apply live_DebugError].
  - eexists; split; [exact L|reflexivity].
  - eexists. split; [|reflexivity]. eapply live_trans; [exact L|apply live_DebugError].
  - eexists. split; [|reflexivity].
    eapply live_trans; [exact L|].
    rewrite serve_steps.
    match goal with |- context [steps ?l ?m] =>
      pose proof (live_steps l m) as Ls; set (m1 := steps l m) in *
    end.
    cbn in Ls.
    eapply live_trans; [exact Ls|]. clearbody m1.
    destruct (panics next); [apply live_refl|].
    pose proof (live_processResponse m1) as Lp.
    destruct (processResponse m1) as [[e|] m2]; cbn in *; [|exact Lp].
    eapply live_trans; [exact Lp|apply live_DebugError].
  - eexists; split; [exact L|reflexivity].
Qed.

End Properties.

(** ** What the writer has seen, counted *)

Lemma status_lines_app a b : status_lines (a ++ b) = status_lines a ++ status_lines b.
Proof. apply omap_app. Qed.

Lemma status_lines_writes bs : status_lines (map EvWrite bs) = [].
Proof. by induction bs. Qed.

Lemma body_bytes_app a b : body_bytes (a ++ b) = body_bytes a ++ body_bytes b.
Proof. unfold body_bytes. by rewrite omap_app, concat_app. Qed.

Lemma growth_status_lines f f' ext :
  growth f f' ext ->
  List.length (status_lines ext) = (if f then 0 else if f' then 1 else 0)%nat.
Proof.
  unfold growth. destruct f, f'; try done.
  - intros [bs ->]. by rewrite status_lines_writes.
  - intros (c & bs & ->). cbn. by rewrite status_lines_writes.
  - by intros ->.
Qed.

Section Claims.
Context {T : Type} `{Engine T} `{Wire}.

Lemma fresh_mem_flushed (t : Session T) writer proto pooled log :
  flushed (fresh_mem t writer proto pooled log) = false.
Proof. done. Qed.

Lemma steps_status_lines (t : Session T) writer proto pooled log (l : list Step) :
  let m := steps l (fresh_mem t writer proto pooled log) in
  exists sent,
    status_lines (seen m) = status_lines (events writer) ++ sent /\
    (List.length sent <= 1)%nat /\
    List.length sent = (if flushed m then 1 else 0)%nat.
Proof.
  intros m.
  destruct (advance_steps l (fresh_mem t writer proto pooled log)) as (ext & E & G).
  fold m in E, G. exists (status_lines ext).
  apply growth_status_lines in G. rewrite fresh_mem_flushed in G.
  split; [by rewrite E, status_lines_app|].
  rewrite G. destruct (flushed m); split; (lia || done).
Qed.

(** Claim C1.  During a request the interceptor calls the downstream
    writer's [WriteHeader] at most once.  Start from the interceptor as
    [reset] leaves it and run any sequence of handler calls, direct calls of
    [flushWriteHeader] and runs of [processResponse]: the status lines the
    writer has received are the ones it had before plus at most one, exactly
    one once [isWriteHeaderFlush] is set and none before.  The flag is the
    guard: flushing twice is flushing once, and flushing with the flag set
    changes nothing. *)
Theorem C1_status_line_at_most_once
    (t : Session T) writer proto pooled log (l : list Step) :
  let m := steps l (fresh_mem t writer proto pooled log) in
  (exists sent,
      status_lines (seen m) = status_lines (events writer) ++ sent /\
      (List.length sent <= 1)%nat /\
      List.length sent = (if flushed m then 1 else 0)%nat) /\
  (forall m' : Mem T,
      flushWriteHeader (flushWriteHeader m') = flushWriteHeader m' /\
      flushWriteHeader (upd (set_isWriteHeaderFlush true) m')
        = upd (set_isWriteHeaderFlush true) m').
Proof.
  intros m. split; [apply steps_status_lines|].
  intros m'. split; [apply flushWriteHeader_idempotent|by apply flushWriteHeader_guard].
Qed.

(** The same through the middleware. *)
Lemma Intercept_status_line next fresh writer req pooled log :
  eIsRuleEngineOff fresh = false ->
  exists sent,
    status_lines (events (x_writer (Intercept next fresh writer req pooled log)))
      = status_lines (events writer) ++ sent /\ (List.length sent <= 1)%nat.
Proof.
  intros Hoff. unfold Intercept. unfold IsRuleEngineOff. cbn [NewTransaction engine].
  rewrite Hoff.
  destruct (processRequest _ req) as [[out t] req'].
  destruct out as [[[it|] [err|]]|reason]; cbn;
    try (exists []; rewrite app_nil_r; split; [done|cbn; lia]).
  - eexists [_]. rewrite status_lines_app. split; [done|cbn; lia].
  - rewrite serve_steps.
    set (l := map Handle (script next)).
    destruct (panics next).
    + destruct (steps_status_lines t writer (Proto req') pooled log l)
        as (sent & E & L & _). by exists sent.
    + destruct (steps_status_lines t writer (Proto req') pooled log (l ++ [Drive]))
        as (sent & E & L & _).
      unfold steps in E. rewrite foldl_app in E. cbn in E.
      exists sent. split; [|done]. rewrite <- E. unfold seen.
      fold (steps l (fresh_mem t writer (Proto req') pooled log)).
      by destruct (processResponse _) as [[e|] m2].
Qed.

(** ** Once a verdict stands *)

Lemma interrupted_Write b (m : Mem T) : interrupted m = true -> Write b m = ((0, None), m).
Proof. unfold interrupted, Write. by intros ->. Qed.

Lemma interrupted_processResponse (m : Mem T) :
  interrupted m = true -> processResponse m = (None, m).
Proof. unfold interrupted, processResponse. by intros ->. Qed.

Lemma interrupted_ReadFrom cs rerr n (m : Mem T) :
  interrupted m = true -> (copy_chunks Write cs rerr n m).2 = m.
Proof.
  intros Hi. revert n. induction cs as [|c cs IH]; intros n; cbn; [done|].
  destruct (blen c =? 0) eqn:E; [apply IH|].
  rewrite (interrupted_Write c m Hi). cbn.
  assert (0 <= blen c) by (unfold blen; lia).
  replace (blen c <? 0) with false by (symmetry; apply Z.ltb_ge; lia). cbn.
  by rewrite E.
Qed.

Lemma interrupted_writes bs (m : Mem T) :
  interrupted m = true ->
  serve (map OpWrite bs) m = (map (fun _ => RWritten 0 None) bs, m).
Proof.
  intros Hi. induction bs as [|b bs IH]; cbn; [done|].
  rewrite (interrupted_Write b m Hi). cbn. by rewrite IH.
Qed.

Lemma sticky_add_response_headers h (t : Session T) :
  sticky -> IsInterrupted t = true -> IsInterrupted (add_response_headers h t) = true.
Proof.
  intros Hs. unfold add_response_headers. generalize (range h). intros l. revert t.
  induction l as [|[k vv] l IH]; intros t Ht; cbn; [done|]. apply IH.
  clear IH. revert t Ht. induction vv as [|v vv IH]; intros t Ht; cbn; [done|].
  apply IH. by apply Hs.
Qed.

Lemma sticky_WriteHeader code (m : Mem T) :
  sticky -> interrupted m = true -> interrupted (WriteHeader code m) = true.
Proof.
  intros Hs Hi. unfold WriteHeader. destruct (wroteHeader _); [done|].
  pose proof (sticky_add_response_headers (header (w (icpt m))) _ Hs Hi) as Ha.
  match goal with |- context [ProcessResponseHeaders ?c ?p ?t] =>
    assert (IsInterrupted (ProcessResponseHeaders c p t).2 = true) as Hp
      by (by apply Hs);
    destruct (ProcessResponseHeaders c p t) as [it t']
  end.
  cbn in *. destruct it; [|done].
  unfold interrupted. by rewrite flushWriteHeader_session.
Qed.

Lemma WriteHeader_body code (m : Mem T) :
  body_bytes (seen (WriteHeader code m)) = body_bytes (seen m).
Proof.
  destruct (WriteHeader_seen code m) as [[_ ->]|(_ & _ & c & ->)]; [done|].
  rewrite body_bytes_app. cbn. apply app_nil_r.
Qed.

Lemma sticky_step s (m : Mem T) :
  sticky -> interrupted m = true ->
  interrupted (step s m) = true /\ body_bytes (seen (step s m)) = body_bytes (seen m).
Proof.
  intros Hs Hi. destruct s as [op| |]; cbn.
  - destruct op; cbn; try done.
    + split; [by apply sticky_WriteHeader|apply WriteHeader_body].
    + by rewrite (interrupted_Write b m Hi).
    + unfold WriteString. by rewrite (interrupted_Write _ m Hi).
    + unfold ReadFrom, io_Copy. by rewrite interrupted_ReadFrom.
    + unfold FlushError. destruct (negb _); cbn; [|done].
      split; [by apply sticky_WriteHeader|apply WriteHeader_body].
  - unfold interrupted. rewrite flushWriteHeader_session. split; [done|].
    rewrite flushWriteHeader_seen. destruct (flushed m); [done|].
    rewrite body_bytes_app. cbn. apply app_nil_r.
  - by rewrite (interrupted_processResponse m Hi).
Qed.

Lemma sticky_steps l (m : Mem T) :
  sticky -> interrupted m = true ->
  interrupted (steps l m) = true /\ body_bytes (seen (steps l m)) = body_bytes (seen m).
Proof.
  intros Hs. revert m. induction l as [|s l IH]; intros m Hi; [done|].
  change (steps (s :: l) m) with (steps l (step s m)).
  destruct (sticky_step s m Hs Hi) as [Hi' Hb].
  destruct (IH _ Hi') as [Hi'' Hb']. split; [done|congruence].
Qed.

(** With a verdict standing when the call starts, [Write] returns
    [(0, nil)] and changes nothing, so any run of writes leaves the state as
    it is, and [processResponse] returns [nil] without touching the writer.
    With an engine whose verdicts keep standing, no sequence of handler
    calls, flushes and runs of the driver started in such a state brings a
    body byte to the downstream writer. *)
Lemma standing_verdict_discards (m : Mem T) :
  interrupted m = true ->
  (forall b, Write b m = ((0, None), m)) /\
  processResponse m = (None, m) /\
  (forall bs, serve (map OpWrite bs) m = (map (fun _ => RWritten 0 None) bs, m)) /\
  (sticky -> forall l,
      interrupted (steps l m) = true /\
      body_bytes (seen (steps l m)) = body_bytes (seen m)).
Proof.
  intros Hi. split; [|split; [|split]].
  - intros b. by apply interrupted_Write.
  - by apply interrupted_processResponse.
  - intros bs. by apply interrupted_writes.
  - intros Hs l. by apply sticky_steps.
Qed.

(** ** The response phase driver *)

(** Claim C7.  When the transaction is not interrupted, the response body
    is inspected, the response-body phase returns an error and the status
    line has not been flushed, [processResponse] reports that error, the
    recorded status becomes 500 and the downstream writer receives exactly
    that status line: no body write is added and the headers stay as they
    are. *)
Theorem C7_body_phase_failure (m : Mem T) it e :
  interrupted m = false ->
  inspected m = true ->
  (ProcessResponseBody (tx (icpt m))).1 = (it, Some e) ->
  flushed m = false ->
  let r := processResponse m in
  r.1 = Some e /\
  seen r.2 = seen m ++ [EvWriteHeader StatusInternalServerError] /\
  body_bytes (seen r.2) = body_bytes (seen m) /\
  statusCode (icpt r.2) = StatusInternalServerError /\
  flushed r.2 = true /\
  header (w (icpt r.2)) = header (w (icpt m)).
Proof.
  unfold interrupted, inspected, flushed, seen. intros Hi Ha Hp Hf.
  unfold processResponse. rewrite Hi, Ha, Hp. cbn.
  unfold flushWriteHeader. cbn. rewrite Hf. cbn.
  split_and!; try done.
  unfold body_bytes. rewrite omap_app, concat_app. cbn. apply app_nil_r.
Qed.

(** A verdict of the response-body phase while the status is deferred. *)
Lemma body_phase_verdict (m : Mem T) it :
  interrupted m = false ->
  inspected m = true ->
  (ProcessResponseBody (tx (icpt m))).1 = (Some it, None) ->
  flushed m = false ->
  let r := processResponse m in
  r.1 = None /\
  seen r.2 = seen m ++
    [EvWriteHeader (obtainStatusCodeFromInterruptionOrDefault it (statusCode (icpt m)))] /\
  header (w (icpt r.2)) =
    Header_Set "Content-Length" "0"
      (foldl (fun h k => Header_Del k h) (header (w (icpt m)))
         (range (header (w (icpt m)))).*1).
Proof.
  unfold interrupted, inspected, flushed, seen. intros Hi Ha Hp Hf.
  unfold processResponse. rewrite Hi, Ha, Hp. cbn.
  unfold flushWriteHeader. cbn. rewrite Hf. by cbn.
Qed.

(** While the status is deferred nothing at all has reached the writer. *)
Lemma deferred_nothing_sent (t : Session T) writer proto pooled log l :
  let m := steps l (fresh_mem t writer proto pooled log) in
  flushed m = false -> seen m = events writer.
Proof.
  intros m Hf.
  destruct (advance_steps l (fresh_mem t writer proto pooled log)) as (ext & E & G).
  fold m in E, G. rewrite Hf in G. cbn in G. subst ext. by rewrite app_nil_r in E.
Qed.

(** ** Recording the header *)

Lemma WriteHeader_superfluous code (m : Mem T) :
  wroteHeader (icpt m) = true ->
  WriteHeader code m = {| icpt := icpt m; stdlog := stdlog m ++ [SuperfluousWriteHeader] |}.
Proof. unfold WriteHeader. by intros ->. Qed.

Lemma WriteHeader_recorded code (m : Mem T) :
  wroteHeader (icpt m) = false ->
  (ProcessResponseHeaders code (proto (icpt m))
     (add_response_headers (header (w (icpt m))) (tx (icpt m)))).1 = None ->
  let m' := WriteHeader code m in
  wroteHeader (icpt m') = true /\ statusCode (icpt m') = code /\ size (icpt m') = 0 /\
  seen m' = seen m /\ flushed m' = flushed m /\ stdlog m' = stdlog m /\
  header (w (icpt m')) = header (w (icpt m)).
Proof.
  intros Hw Hp. unfold WriteHeader. rewrite Hw. cbn. cbn in Hp. by rewrite Hp.
Qed.

Lemma flushed_status_lines l (m : Mem T) :
  flushed m = true -> status_lines (seen (steps l m)) = status_lines (seen m).
Proof.
  intros Hf. destruct (advance_steps l m) as (ext & E & G).
  apply growth_status_lines in G. rewrite Hf in G.
  rewrite E, status_lines_app. destruct (status_lines ext); [apply app_nil_r|done].
Qed.

(** Claim C4.  [WriteHeader A] then [WriteHeader B] on a fresh
    interceptor, the response-header phase raising no verdict for [A]: the
    second call returns nothing to the handler and changes nothing but the
    standard logger, which gets the superfluous-call line; the recorded
    status is [A]; nothing is sent before the flush, the flush sends [A], and
    whatever follows the writer has received the status line [A] once. *)
Theorem C4_first_header_wins (t : Session T) writer proto pooled log (A B : Z) :
  (ProcessResponseHeaders A proto (add_response_headers (header writer) t)).1 = None ->
  let m1 := WriteHeader A (fresh_mem t writer proto pooled log) in
  let m2 := WriteHeader B m1 in
  call (OpWriteHeader B) m1 = (RDone, m2) /\
  m2 = {| icpt := icpt m1; stdlog := stdlog m1 ++ [SuperfluousWriteHeader] |} /\
  RecordedStatus (icpt m2) = A /\
  seen m2 = events writer /\
  seen (flushWriteHeader m2) = events writer ++ [EvWriteHeader A] /\
  (forall l, status_lines (seen (steps l (flushWriteHeader m2)))
             = status_lines (events writer) ++ [A]).
Proof.
  intros Hp m1 m2.
  destruct (WriteHeader_recorded A (fresh_mem t writer proto pooled log) eq_refl Hp)
    as (Hw & Hc & _ & Hs & Hf & _).
  fold m1 in Hw, Hc, Hs, Hf.
  assert (m2 = {| icpt := icpt m1; stdlog := stdlog m1 ++ [SuperfluousWriteHeader] |}) as E2
    by (by apply WriteHeader_superfluous).
  assert (call (OpWriteHeader B) m1 = (RDone, m2)) as Ec by done.
  clearbody m2 m1.
  assert (seen (flushWriteHeader m2) = events writer ++ [EvWriteHeader A]) as Es.
  { rewrite flushWriteHeader_seen, E2.
    change (flushed {| icpt := icpt m1; stdlog := _ |}) with (flushed m1).
    change (seen {| icpt := icpt m1; stdlog := _ |}) with (seen m1).
    rewrite Hf, Hs. cbn. by rewrite Hc. }
  repeat split; try done.
  - by rewrite E2.
  - by rewrite E2.
  - intros l. rewrite flushed_status_lines by apply flushWriteHeader_flushed.
    by rewrite Es, status_lines_app.
Qed.

(** What [WriteHeader] sends: nothing, unless the response-header phase
    gives a verdict while the status is deferred. *)
Lemma WriteHeader_sends code (m : Mem T) :
  seen (WriteHeader code m) = seen m \/
  (wroteHeader (icpt m) = false /\ flushed m = false /\
   exists it,
     (ProcessResponseHeaders code (proto (icpt m))
        (add_response_headers (header (w (icpt m))) (tx (icpt m)))).1 = Some it /\
     seen (WriteHeader code m)
       = seen m ++ [EvWriteHeader (obtainStatusCodeFromInterruptionOrDefault it code)]).
Proof.
  unfold WriteHeader. destruct (wroteHeader (icpt m)) eqn:Hw; [by left|]. cbn.
  destruct (eProcessResponseHeaders _ _ _).1 as [it|] eqn:Hp; [|by left].
  rewrite flushWriteHeader_seen. unfold flushed at 1. cbn.
  destruct (isWriteHeaderFlush (icpt m)) eqn:Hf; [by left|].
  right. repeat split; try done. by exists it.
Qed.


(** Claim C9.  After [reset] the interceptor is in its initial state
    whatever it held before: [Written()] is false, [Size()] is 0 with the
    size field at the [notWritten] sentinel, the status is the default 200,
    neither [wroteHeader] nor [isWriteHeaderFlush] is set, and the writer,
    transaction and protocol are the ones given.  The sentinel tells
    nothing written from zero bytes written: with the size at 0, [Written()]
    is true and [Size()] is still 0. *)
Theorem C9_reset_is_fresh (t : Session T) writer pr (i : rwInterceptor T) :
  let i' := reset t writer pr i in
  Written i' = false /\ Size i' = 0 /\ size i' = notWritten /\
  RecordedStatus i' = StatusOK /\
  wroteHeader i' = false /\ isWriteHeaderFlush i' = false /\
  w i' = writer /\ tx i' = t /\ proto i' = pr /\
  (forall j : rwInterceptor T, reset t writer pr j = i') /\
  Written (set_size 0 i') = true /\ Size (set_size 0 i') = 0.
Proof. by repeat split. Qed.

End Claims.

(** ** Cleaning the headers *)

Lemma foldl_Header_Del_lookup ks (h : http_Header) j :
  foldl (fun h k => Header_Del k h) h ks !! j =
  if decide (j ∈ CanonicalMIMEHeaderKey <$> ks) then None else h !! j.
Proof.
  revert h. induction ks as [|k ks IH]; intros h; cbn.
  - case_decide as E; [by apply elem_of_nil in E|done].
  - rewrite IH. unfold Header_Del.
    destruct (decide (j ∈ CanonicalMIMEHeaderKey <$> ks)) as [Hin|Hnin].
    + rewrite decide_True; [done|apply elem_of_cons; by right].
    + destruct (decide (j = CanonicalMIMEHeaderKey k)) as [->|Hne].
      * rewrite lookup_delete_eq, decide_True; [done|apply elem_of_cons; by left].
      * rewrite lookup_delete_ne by done. rewrite decide_False; [done|].
        intros [?|?]%elem_of_cons; done.
Qed.

Lemma clean_canonical (h : http_Header) :
  canonical_keys h -> foldl (fun h k => Header_Del k h) h (range h).*1 = ∅.
Proof.
  intros Hc. apply map_eq. intros j. rewrite foldl_Header_Del_lookup, lookup_empty.
  case_decide as Hin; [done|]. destruct (h !! j) as [v|] eqn:E; [|done].
  exfalso. apply Hin. apply list_elem_of_fmap. exists j. split.
  - symmetry. apply Hc. by exists v.
  - apply list_elem_of_fmap. exists (j, v). split; [done|].
    unfold range. by apply elem_of_map_to_list.
Qed.


(** ** Canonical header keys *)

Ltac each_ascii c :=
  destruct c as [[] [] [] [] [] [] [] []]; vm_compute; try reflexivity; try discriminate.

Lemma to_upper_valid c :
  validHeaderFieldByte c = true -> validHeaderFieldByte (to_upper c) = true.
Proof. each_ascii c. Qed.

Lemma to_lower_valid c :
  validHeaderFieldByte c = true -> validHeaderFieldByte (to_lower c) = true.
Proof. each_ascii c. Qed.

Lemma to_upper_idem c : to_upper (to_upper c) = to_upper c.
Proof. each_ascii c. Qed.

Lemma to_lower_idem c : to_lower (to_lower c) = to_lower c.
Proof. each_ascii c. Qed.

Lemma canon_case_valid s upper :
  all_chars validHeaderFieldByte s = true ->
  all_chars validHeaderFieldByte (canon_case upper s) = true.
Proof.
  revert upper. induction s as [|c s IH]; intros upper; cbn; [done|].
  intros [Hc Hs]%andb_prop. rewrite IH by done.
  destruct upper; [rewrite to_upper_valid|rewrite to_lower_valid]; done.
Qed.

Lemma canon_case_idem s upper :
  canon_case upper (canon_case upper s) = canon_case upper s.
Proof.
  revert upper. induction s as [|c s IH]; intros upper; cbn; [done|].
  destruct upper; rewrite ?to_upper_idem, ?to_lower_idem, IH; done.
Qed.

Lemma CanonicalMIMEHeaderKey_idem k :
  CanonicalMIMEHeaderKey (CanonicalMIMEHeaderKey k) = CanonicalMIMEHeaderKey k.
Proof.
  unfold CanonicalMIMEHeaderKey.
  destruct (all_chars validHeaderFieldByte k) eqn:E.
  - by rewrite canon_case_valid, canon_case_idem.
  - by rewrite E.
Qed.

(** [cleanHeaders] removes the canonical keys and keeps the others. *)
Lemma clean_lookup (h : http_Header) k :
  foldl (fun h k => Header_Del k h) h (range h).*1 !! k =
  if decide (CanonicalMIMEHeaderKey k = k) then None else h !! k.
Proof.
  rewrite foldl_Header_Del_lookup.
  destruct (decide (k ∈ CanonicalMIMEHeaderKey <$> (range h).*1)) as [Hin|Hnin].
  - apply list_elem_of_fmap in Hin as (j & Hj & _).
    rewrite decide_True; [done|]. by rewrite Hj, CanonicalMIMEHeaderKey_idem.
  - destruct (decide (CanonicalMIMEHeaderKey k = k)) as [Hc|Hc]; [|done].
    destruct (h !! k) as [v|] eqn:E; [|done].
    destruct Hnin. apply list_elem_of_fmap. exists k. split; [done|].
    apply list_elem_of_fmap. exists (k, v). split; [done|].
    unfold range. by apply elem_of_map_to_list.
Qed.

Lemma canonical_keys_insert (h : http_Header) k vs :
  CanonicalMIMEHeaderKey k = k -> canonical_keys h -> canonical_keys (<[k := vs]> h).
Proof.
  intros Hk Hh j. destruct (decide (k = j)) as [<-|Hne]; [done|].
  rewrite lookup_insert_ne by done. apply Hh.
Qed.

Lemma canonical_keys_delete (h : http_Header) k :
  canonical_keys h -> canonical_keys (delete k h).
Proof.
  intros Hh j. destruct (decide (k = j)) as [<-|Hne].
  - rewrite lookup_delete_eq. by intros [? ?].
  - rewrite lookup_delete_ne by done. apply Hh.
Qed.

Lemma canonical_keys_op op (h : http_Header) :
  keeps_canonical op -> canonical_keys h -> canonical_keys (header_op op h).
Proof.
  destruct op; cbn; intros Hop Hh; try done.
  - apply canonical_keys_insert; [apply CanonicalMIMEHeaderKey_idem|done].
  - apply canonical_keys_insert; [apply CanonicalMIMEHeaderKey_idem|done].
  - by apply canonical_keys_delete.
  - by apply canonical_keys_insert.
  - by apply canonical_keys_delete.
Qed.

Lemma canonical_keys_blank (h : http_Header) :
  canonical_keys h ->
  canonical_keys
    (Header_Set "Content-Length" "0" (foldl (fun h k => Header_Del k h) h (range h).*1)).
Proof.
  intros Hh. rewrite clean_canonical by done.
  apply canonical_keys_insert; [apply CanonicalMIMEHeaderKey_idem|].
  intros j. rewrite lookup_empty. by intros [? ?].
Qed.

Section Headers.
Context {T : Type} `{Engine T} `{Wire}.

Local Abbreviation headers m := (header (w (icpt m))) (only parsing).

(** The interceptor's own operations leave the header map alone or blank
    it, so they keep any property of the map that blanking establishes. *)
Section Preserved.
Context (P : http_Header -> Prop).
Context (P_blank : forall h, P h ->
  P (Header_Set "Content-Length" "0" (foldl (fun h k => Header_Del k h) h (range h).*1))).

Lemma flushWriteHeader_headers (m : Mem T) : headers (flushWriteHeader m) = headers m.
Proof. unfold flushWriteHeader. by destruct (negb _). Qed.

Lemma preserved_WriteHeader code (m : Mem T) : P (headers m) -> P (headers (WriteHeader code m)).
Proof.
  intros Hm. unfold WriteHeader. destruct (wroteHeader _); [done|].
  destruct (ProcessResponseHeaders _ _ _).1; [|done].
  rewrite flushWriteHeader_headers. by apply P_blank.
Qed.

Lemma preserved_Write b (m : Mem T) : P (headers m) -> P (headers (Write b m).2).
Proof.
  intros Hm. unfold Write. destruct (IsInterrupted _); [done|].
  set (m1 := if negb (wroteHeader (icpt m)) then WriteHeader StatusOK m else m).
  assert (P (headers m1)) as H1.
  { subst m1. destruct (negb _); [by apply preserved_WriteHeader|done]. }
  clearbody m1. destruct (_ && _).
  - destruct (WriteResponseBody b (tx (icpt m1))) as [[[it n] err] t']. cbn.
    destruct it; cbn; [|done]. rewrite flushWriteHeader_headers. by apply P_blank.
  - destruct (down_Write b _) as [[n err] w'] eqn:E. cbn.
    unfold down_Write in E. injection E as _ <-. cbn.
    by rewrite flushWriteHeader_headers.
Qed.

Lemma preserved_copy (write : list byte -> Mem T -> (Z * option error) * Mem T) :
  (forall b m, P (headers m) -> P (headers (write b m).2)) ->
  forall cs rerr n m, P (headers m) -> P (headers (copy_chunks write cs rerr n m).2).
Proof.
  intros Hw cs rerr. induction cs as [|c cs IH]; intros n m Hm; cbn; [done|].
  destruct (blen c =? 0); [by apply IH|].
  specialize (Hw c m Hm). destruct (write c m) as [[nw ew] m'].
  destruct (_ || _); cbn; [done|].
  destruct ew; cbn; [done|]. destruct (negb _); cbn; [done|]. by apply IH.
Qed.

Lemma copy_down_header cs rerr n rw :
  header (copy_chunks down_Write cs rerr n rw).2 = header rw.
Proof.
  revert n rw. induction cs as [|c cs IH]; intros n rw; cbn; [done|].
  destruct (blen c =? 0); [apply IH|].
  destruct (wire_write rw c) as [nw ew].
  destruct (_ || _); cbn; [done|].
  destruct ew; cbn; [done|]. destruct (negb _); cbn; [done|]. by rewrite IH.
Qed.

Lemma preserved_processResponse (m : Mem T) :
  P (headers m) -> P (headers (processResponse m).2).
Proof.
  intros Hm. unfold processResponse. destruct (IsInterrupted _); [done|].
  destruct (_ && _); [|by cbn; rewrite flushWriteHeader_headers].
  destruct (ProcessResponseBody _) as [[it err] t']. cbn.
  destruct err; cbn; [by rewrite flushWriteHeader_headers|].
  destruct it; cbn; [rewrite flushWriteHeader_headers; by apply P_blank|].
  destruct (ResponseBodyReader _); cbn; [by rewrite flushWriteHeader_headers|].
  unfold io_Copy.
  match goal with |- context [copy_chunks down_Write ?cs ?e ?n ?rw] =>
    pose proof (copy_down_header cs e n rw) as Hc;
    destruct (copy_chunks down_Write cs e n rw) as [[n' err] w']
  end.
  cbn in *. destruct err; cbn; by rewrite Hc, flushWriteHeader_headers.
Qed.
End Preserved.

Lemma canonical_step s (m : Mem T) :
  step_keeps_canonical s ->
  canonical_keys (headers m) -> canonical_keys (headers (step s m)).
Proof.
  intros Hs Hm. destruct s as [op| |]; cbn.
  - destruct op; cbn; try (by apply (canonical_keys_op _ _ Hs)).
    + by apply (preserved_WriteHeader canonical_keys canonical_keys_blank).
    + by apply (preserved_Write canonical_keys canonical_keys_blank).
    + by apply (preserved_Write canonical_keys canonical_keys_blank).
    + apply (preserved_copy canonical_keys); [|done].
      apply (preserved_Write canonical_keys canonical_keys_blank).
    + unfold FlushError. destruct (negb _); cbn; [|done].
      by apply (preserved_WriteHeader canonical_keys canonical_keys_blank).
  - by rewrite flushWriteHeader_headers.
  - by apply (preserved_processResponse canonical_keys canonical_keys_blank).
Qed.

Lemma canonical_steps l (m : Mem T) :
  Forall step_keeps_canonical l ->
  canonical_keys (headers m) -> canonical_keys (headers (steps l m)).
Proof.
  intros Hl. revert m. induction Hl as [|s l Hs _ IH]; intros m Hm; [done|].
  change (steps (s :: l) m) with (steps l (step s m)). by apply IH, canonical_step.
Qed.

(** A verdict raised while [Write] appends to the response buffer. *)
Lemma Write_verdict_blocks (m : Mem T) b it n err t' :
  interrupted m = false ->
  wroteHeader (icpt m) = true ->
  inspected m = true ->
  WriteResponseBody b (tx (icpt m)) = ((Some it, n, err), t') ->
  flushed m = false ->
  let r := Write b m in
  r.1 = (0, None) /\
  seen r.2 = seen m ++
    [EvWriteHeader (obtainStatusCodeFromInterruptionOrDefault it (statusCode (icpt m)))] /\
  headers r.2 =
    Header_Set "Content-Length" "0"
      (foldl (fun h k => Header_Del k h) (headers m) (range (headers m)).*1).
Proof.
  unfold interrupted, inspected, flushed, seen. intros Hi Hw Ha Hp Hf.
  unfold Write. rewrite Hi, Hw. cbn [negb]. rewrite Ha, Hp. cbn.
  unfold flushWriteHeader. cbn. rewrite Hf. by cbn.
Qed.
End Headers.

Section Verdicts.
Context {T : Type} `{Engine T} `{Wire}.

(** A verdict of the response-body phase after a handler that kept the
    keys of the header map canonical and left the status deferred: the
    writer gets the verdict's status line and nothing else, and the header
    map is [Content-Length: 0] alone. *)
Lemma body_phase_verdict_blocks (t : Session T) writer proto pooled log l it :
  let m := steps l (fresh_mem t writer proto pooled log) in
  let r := processResponse m in
  canonical_keys (header writer) ->
  Forall step_keeps_canonical l ->
  flushed m = false ->
  interrupted m = false ->
  inspected m = true ->
  (ProcessResponseBody (tx (icpt m))).1 = (Some it, None) ->
  r.1 = None /\
  seen r.2 = events writer ++
    [EvWriteHeader (obtainStatusCodeFromInterruptionOrDefault it (statusCode (icpt m)))] /\
  body_bytes (seen r.2) = body_bytes (events writer) /\
  header (w (icpt r.2)) = {["Content-Length" := ["0"]]}.
Proof.
  intros m r Hw Hl Hf Hi Ha Hp.
  assert (canonical_keys (header (w (icpt m)))) as Hc by (by apply canonical_steps).
  destruct (body_phase_verdict m it Hi Ha Hp Hf) as (Hr & Hs & Hh). fold r in Hr, Hs, Hh.
  pose proof (deferred_nothing_sent t writer proto pooled log l Hf) as Hn. fold m in Hn.
  rewrite Hn in Hs. split_and!; try done.
  - rewrite Hs, body_bytes_app. apply app_nil_r.
  - rewrite Hh, clean_canonical by done. apply insert_empty.
Qed.
End Verdicts.

Example body_phase_verdict_blocks_example :
  let m := steps [Handle (OpHeaderSet "content-type" "text/html"); Handle (OpWrite abc)]
             (stub_mem (stub None None (Some deny) None)) in
  seen (processResponse m).2 = [EvWriteHeader 403] /\
  header (w (icpt (processResponse m).2)) = {["Content-Length" := ["0"]]}.
Proof.
  intros m.
  destruct (body_phase_verdict_blocks (NewTransaction (stub None None (Some deny) None))
              blank_writer "HTTP/1.1" blank_interceptor []
              [Handle (OpHeaderSet "content-type" "text/html"); Handle (OpWrite abc)] deny)
    as (_ & Hs & _ & Hh).
  - intros k. cbn. rewrite lookup_empty. by intros [? ?].
  - by repeat constructor.
  - vm_compute; reflexivity.
  - vm_compute; reflexivity.
  - vm_compute; reflexivity.
  - vm_compute; reflexivity.
  - subst m. unfold stub_mem. split; [rewrite Hs; vm_compute; reflexivity|exact Hh].
Qed.


(** Claim C3, at an input where the code departs from it.  The handler
    assigns the header [x-trace] to the map directly and writes three bytes,
    which the engine buffers; the response-body phase then gives a [deny]
    verdict.  The writer receives the status line 403 and no body byte, and
    [Content-Length] is ["0"], but [x-trace] is still in the header map:
    [cleanHeaders] deletes the canonical form of each key, which for a key
    that is not canonical is another key. *)
Theorem C3_noncanonical_header_survives :
  let m := (serve [OpHeaderAssign "x-trace" ["1"]; OpWrite abc]
              (stub_mem (stub None None (Some deny) None))).2 in
  let r := processResponse m in
  buffered (engine (tx (icpt m))) = abc /\
  seen m = [] /\
  flushed m = false /\
  r.1 = None /\
  seen r.2 = [EvWriteHeader 403] /\
  header (w (icpt r.2)) !! "Content-Length" = Some ["0"] /\
  header (w (icpt r.2)) !! "x-trace" = Some ["1"] /\
  header (w (icpt r.2)) <> {["Content-Length" := ["0"]]}.
Proof.
  cbv zeta. split_and!; try (vm_compute; reflexivity).
  intros E. apply (f_equal (fun h => h !! "x-trace")) in E. vm_compute in E. discriminate E.
Qed.

(** Claim C5.  The verdict resolver: a [deny] verdict without a status
    gives 403, a [deny] verdict with a status gives that status, and a
    verdict with any other action gives the fallback status. *)
Theorem C5_verdict_resolver (it : Interruption) (fallback : Z) :
  (Action it = "deny" -> Status it = 0 ->
   obtainStatusCodeFromInterruptionOrDefault it fallback = 403) /\
  (Action it = "deny" -> Status it <> 0 ->
   obtainStatusCodeFromInterruptionOrDefault it fallback = Status it) /\
  (Action it <> "deny" ->
   obtainStatusCodeFromInterruptionOrDefault it fallback = fallback).
Proof.
  unfold obtainStatusCodeFromInterruptionOrDefault.
  destruct (String.eqb_spec (Action it) "deny") as [Ea|Ea];
    destruct (Z.eqb_spec (Status it) 0) as [Es|Es]; split_and!; intros; congruence.
Qed.

Lemma C5_witness :
  obtainStatusCodeFromInterruptionOrDefault deny 200 = 403 /\
  obtainStatusCodeFromInterruptionOrDefault
    {| RuleID := 1; Action := "deny"; Status := 429; Data := "" |} 200 = 429 /\
  obtainStatusCodeFromInterruptionOrDefault
    {| RuleID := 1; Action := "drop"; Status := 0; Data := "" |} 200 = 200.
Proof.
  split; [|split].
  - apply (proj1 (C5_verdict_resolver deny 200)); reflexivity.
  - apply (proj1 (proj2 (C5_verdict_resolver
             {| RuleID := 1; Action := "deny"; Status := 429; Data := "" |} 200)));
      [reflexivity|discriminate].
  - apply (proj2 (proj2 (C5_verdict_resolver
             {| RuleID := 1; Action := "drop"; Status := 0; Data := "" |} 200))).
    discriminate.
Defined.

Section Requests.
Context {T : Type} `{Engine T} `{Wire}.

Lemma live_calls (t t' : Session T) : live t t' -> exists ext, calls t' = calls t ++ ext.
Proof. intros (ext & E & _). by exists ext. Qed.

(** For a remote address without a colon the connection phase is called
    with the empty client and port 0: the host and the port both keep their
    zero value, and the request goes on. *)
Lemma processRequest_without_colon (t : Session T) (req : Request) :
  LastIndexByte (RemoteAddr req) ":" = -1 ->
  exists rest,
    calls (processRequest t req).1.2 = calls t ++ CProcessConnection "" 0 "" 0 :: rest.
Proof.
  intros Hidx. pose proof (processRequest_connection t req) as L.
  cbv zeta in L. rewrite Hidx in L.
  change (-1 =? -1) with true in L. cbn [negb] in L.
  apply live_calls in L as [ext E]. exists ext. rewrite E. cbn. by rewrite <- app_assoc.
Qed.

(** With a separator the host is what precedes the last colon. *)
Lemma processRequest_with_separator (t : Session T) (req : Request) :
  let idx := LastIndexByte (RemoteAddr req) ":" in
  idx <> -1 ->
  exists rest,
    calls (processRequest t req).1.2 =
    calls t ++ CProcessConnection (slice_to (RemoteAddr req) idx)
                 (Atoi (slice_from (RemoteAddr req) (idx + 1))).1 "" 0 :: rest.
Proof.
  intros idx Hidx. pose proof (processRequest_connection t req) as L.
  cbv zeta in L. fold idx in L. apply Z.eqb_neq in Hidx. rewrite Hidx in L. cbn [negb] in L.
  apply live_calls in L as [ext E]. exists ext. rewrite E. cbn. by rewrite <- app_assoc.
Qed.

Lemma filter_live (p : TxCall -> bool) ext :
  (forall c, p c = true -> lifecycle c = true) ->
  Forall (fun c => lifecycle c = false) ext -> List.filter p ext = [].
Proof.
  intros Hp. induction 1 as [|c ext Hc _ IH]; cbn; [done|].
  destruct (p c) eqn:E; [|done]. apply Hp in E. congruence.
Qed.

(** Claim C8.  On every path through [Intercept] (engine off, verdict,
    failure or panic of the request phases, handler returning or panicking,
    failure of the response phase) the calls the transaction received end
    with [ProcessLogging] then [Close], and neither occurs before: each is
    made exactly once. *)
Theorem C8_finalize_release_once next (fresh : T) writer req pooled log :
  let x := Intercept next fresh writer req pooled log in
  (exists pre,
      calls (x_tx x) = pre ++ [CProcessLogging; CClose] /\
      Forall (fun c => lifecycle c = false) pre) /\
  List.length (List.filter is_logging (calls (x_tx x))) = 1%nat /\
  List.length (List.filter is_close (calls (x_tx x))) = 1%nat.
Proof.
  intros x. destruct (Intercept_finalizes next fresh writer req pooled log)
    as (t & (pre & Ep & Fp) & Ex).
  fold x in Ex. rewrite Ex, finalize_calls, Ep. cbn [NewTransaction calls app].
  split; [by exists pre|].
  rewrite !List.filter_app.
  rewrite (filter_live is_logging pre), (filter_live is_close pre); try done.
  - intros c Hc. unfold lifecycle. rewrite Hc. apply orb_true_r.
  - intros c Hc. unfold lifecycle. by rewrite Hc.
Qed.
End Requests.

(** Claim C6, at inputs where the code departs from it.  The remote
    address [192.168.1.10] has no port: the connection phase gets the empty
    host with port 0, not the host [192.168.1.10].  The bare IPv6 address
    [2001:db8::1] has no port either: it is cut at its last colon, and the
    connection phase gets the host [2001:db8:] with port 1.  With a port,
    [192.168.1.10:8080], the host is passed as it is. *)
Theorem C6_host_lost_without_port :
  let args addr :=
    connection_args
      (calls (processRequest (NewTransaction quiet_stub) (get_request addr)).1.2) in
  LastIndexByte "192.168.1.10" ":" = -1 /\
  args "192.168.1.10" = Some ("", 0, "", 0) /\
  args "192.168.1.10" <> Some ("192.168.1.10", 0, "", 0) /\
  args "2001:db8::1" = Some ("2001:db8:", 1, "", 0) /\
  args "2001:db8::1" <> Some ("2001:db8::1", 0, "", 0) /\
  args "192.168.1.10:8080" = Some ("192.168.1.10", 8080, "", 0).
Proof.
  cbv zeta. split_and!; try (vm_compute; reflexivity); vm_compute; discriminate.
Qed.


Lemma stub_sticky : sticky (T := Stub).
Proof.
  intros s Hs. split; [done|]. intros c p. cbn in *.
  by destruct (standing s).
Qed.

Example standing_verdict_discards_example :
  let m := stub_mem (stub (Some deny) None None None) in
  interrupted m = true /\
  Write abc m = ((0, None), m) /\
  processResponse m = (None, m) /\
  body_bytes (seen (steps [Handle (OpWriteHeader 200); Handle (OpWrite abc); Drive] m)) = [].
Proof.
  intros m.
  assert (interrupted m = true) as Hi by reflexivity.
  destruct (standing_verdict_discards m Hi) as (Hw & Hp & _ & Hs).
  split; [reflexivity|]. split; [apply Hw|]. split; [exact Hp|].
  apply (Hs stub_sticky).
Qed.

(** Claim C2, at an input where the code departs from it.  The engine does
    not inspect the response body and its response-header phase gives a
    [deny] verdict; the handler's first call is [Write] of three bytes.
    No verdict stands when the call starts, so [Write] records the header
    itself: the implicit [WriteHeader(200)] gets the verdict, blanks the
    headers and sends the status line 403, and the verdict stands.  [Write]
    does not look at the verdict again: it goes on to the downstream writer
    with the three bytes and reports them written.  The writer has received
    403, [Content-Length: 0] and then the body, through the whole of
    [Intercept] as well.  Where the handler calls [WriteHeader] itself
    first, the same write is discarded, as is every write after this one. *)
Theorem C2_body_sent_after_header_verdict :
  let m := stub_mem header_blocking_stub in
  let r := Write abc m in
  let x := Intercept {| script := [OpWrite abc]; panics := false |} header_blocking_stub
             blank_writer (get_request "127.0.0.1:53124") blank_interceptor [] in
  interrupted m = false /\
  interrupted (WriteHeader StatusOK m) = true /\
  seen (WriteHeader StatusOK m) = [EvWriteHeader 403] /\
  r.1 = (3, None) /\
  interrupted r.2 = true /\
  seen r.2 = [EvWriteHeader 403; EvWrite abc] /\
  body_bytes (seen r.2) = abc /\
  header (w (icpt r.2)) = {["Content-Length" := ["0"]]} /\
  events (x_writer x) = [EvWriteHeader 403; EvWrite abc] /\
  Write abc (WriteHeader StatusOK m) = ((0, None), WriteHeader StatusOK m) /\
  Write abc r.2 = ((0, None), r.2).
Proof. cbv zeta. split_and!; vm_compute; reflexivity. Qed.

Lemma C4_witness :
  let m := stub_mem quiet_stub in
  (ProcessResponseHeaders 201 "HTTP/1.1"
     (add_response_headers (header blank_writer) (NewTransaction quiet_stub))).1 = None /\
  RecordedStatus (icpt (WriteHeader 500 (WriteHeader 201 m))) = 201 /\
  seen (flushWriteHeader (WriteHeader 500 (WriteHeader 201 m))) = [EvWriteHeader 201].
Proof.
  intros m.
  assert ((ProcessResponseHeaders 201 "HTTP/1.1"
            (add_response_headers (header blank_writer) (NewTransaction quiet_stub))).1 = None)
    as Hp by reflexivity.
  destruct (C4_first_header_wins (NewTransaction quiet_stub) blank_writer "HTTP/1.1"
              blank_interceptor [] 201 500 Hp) as (_ & _ & Hr & _ & Hs & _).
  split; [reflexivity|]. split; [exact Hr|exact Hs].
Defined.

Lemma C7_witness :
  let m := (serve [OpWrite abc] (stub_mem (stub None None None (Some "boom")))).2 in
  interrupted m = false /\ inspected m = true /\ flushed m = false /\
  (processResponse m).1 = Some "boom" /\
  seen (processResponse m).2 = [EvWriteHeader 500].
Proof.
  intros m.
  assert (interrupted m = false) as Hi by reflexivity.
  assert (inspected m = true) as Ha by reflexivity.
  assert ((ProcessResponseBody (tx (icpt m))).1 = (None, Some "boom")) as Hp by reflexivity.
  assert (flushed m = false) as Hf by reflexivity.
  destruct (C7_body_phase_failure m None "boom" Hi Ha Hp Hf) as (He & Hs & _).
  split; [exact Hi|]. split; [exact Ha|]. split; [exact Hf|]. split; [exact He|exact Hs].
Defined.

(** The scenario of the README: the request phases give a [deny] verdict
    without a status.  The client gets 403, the handler is not called, and
    the transaction is finalised and released. *)
Example blocked_request :
  let engine := {| rule_engine_off := false; standing := None; request_verdict := Some deny;
                   request_body_access := false; response_body_access := true;
                   header_verdict := None; write_verdict := None; body_verdict := None;
                   body_failure := None; close_failure := None; buffered := [] |} in
  let x := Intercept {| script := [OpWriteString "Hello, fox"]; panics := false |}
             engine blank_writer (get_request "127.0.0.1:53124") blank_interceptor [] in
  events (x_writer x) = [EvWriteHeader 403] /\
  x_next_called x = false /\
  calls (x_tx x) =
    [CProcessConnection "127.0.0.1" 53124 "" 0;
     CProcessURI "/hello/fox?path=../foo" "GET" "HTTP/1.1";
     CAddRequestHeader "Accept" "*/*";
     CAddRequestHeader "Host" "localhost:8080";
     CSetServerName "localhost:8080";
     CProcessRequestHeaders;
     CProcessLogging;
     CClose].
Proof. vm_compute. done. Qed.

(** With the rule engine off the handler writes to the router's writer
    directly, and the transaction is still finalised and released. *)
Example engine_off_request :
  let engine := {| rule_engine_off := true; standing := None; request_verdict := None;
                   request_body_access := false; response_body_access := true;
                   header_verdict := None; write_verdict := None; body_verdict := None;
                   body_failure := None; close_failure := None; buffered := [] |} in
  let x := Intercept {| script := [OpWriteHeader 200; OpWrite abc]; panics := false |}
             engine blank_writer (get_request "127.0.0.1:53124") blank_interceptor [] in
  events (x_writer x) = [EvWriteHeader 200; EvWrite abc] /\
  x_pool x = None /\
  calls (x_tx x) = [CProcessLogging; CClose].
Proof. vm_compute. done. Qed.

(** * More of the interceptor and the drivers *)


Lemma body_bytes_writes bs : body_bytes (map EvWrite bs) = List.concat bs.
Proof. unfold body_bytes. induction bs as [|b bs IH]; cbn; [done|]. by rewrite IH. Qed.

Lemma concat_nonempty (cs : list (list byte)) :
  List.concat (List.filter nonempty cs) = List.concat cs.
Proof.
  induction cs as [|c cs IH]; cbn; [done|]. unfold nonempty at 1.
  destruct (blen c =? 0) eqn:E; cbn; rewrite IH; [|done].
  apply Z.eqb_eq in E. destruct c; [done|]. unfold blen in E. cbn in E. lia.
Qed.


Lemma blen_nonneg (b : list byte) : 0 <= blen b.
Proof. unfold blen. lia. Qed.


Section Writes.
Context {T : Type} `{Engine T} `{Wire}.

(** ** The order of what the writer receives *)

(** Extra X1.  Whatever the handler and the package do with the interceptor,
    from any state, the record of the downstream writer only grows, and in
    one way: not at all while the status is deferred, by the status line
    first when it is flushed, and by body writes only once it is flushed;
    the flush is never undone. *)
Theorem X1_status_line_precedes_body (m : Mem T) (l : list Step) :
  exists ext,
    seen (steps l m) = seen m ++ ext /\
    growth (flushed m) (flushed (steps l m)) ext.
Proof. apply advance_steps. Qed.

(** ** Writing straight through *)

Lemma Write_through b (m : Mem T) :
  passes_through m ->
  let m1 := flushWriteHeader m in
  let r := Write b m in
  r.1 = wire_write (w (icpt m1)) b /\
  seen r.2 = seen m1 ++ [EvWrite b] /\
  tx (icpt r.2) = tx (icpt m) /\
  header (w (icpt r.2)) = header (w (icpt m)) /\
  statusCode (icpt r.2) = statusCode (icpt m) /\
  size (icpt r.2) = wrap64 (size (icpt m) + r.1.1) /\
  flushed r.2 = true /\
  passes_through r.2.
Proof.
  unfold passes_through, interrupted, inspected. intros (Hw & Hi & Hn). cbv zeta.
  unfold Write. rewrite Hi, Hw. cbn [negb]. rewrite Hn.
  destruct (wire_write (w (icpt (flushWriteHeader m))) b) as [n err] eqn:E.
  unfold down_Write. rewrite E. cbn.
  unfold flushWriteHeader. destruct (isWriteHeaderFlush (icpt m)) eqn:Hf; cbn;
    rewrite ?Hf; split_and!; done.
Qed.

Lemma writes_through bs (m : Mem T) :
  passes_through m -> flushed m = true ->
  let r := serve (map OpWrite bs) m in
  seen r.2 = seen m ++ map EvWrite bs /\
  tx (icpt r.2) = tx (icpt m) /\
  header (w (icpt r.2)) = header (w (icpt m)) /\
  statusCode (icpt r.2) = statusCode (icpt m) /\
  passes_through r.2 /\
  (sound_writes ->
   r.1 = map (fun b => RWritten (blen b) None) bs /\
   size (icpt r.2) = foldl (fun n b => wrap64 (n + blen b)) (size (icpt m)) bs).
Proof.
  revert m. induction bs as [|b bs IH]; intros m Hp Hf; cbn.
  { rewrite app_nil_r. split_and!; done. }
  destruct (Write_through b m Hp) as (Hr & Hs & Ht & Hh & Hc & Hz & Hf' & Hp').
  rewrite (flushWriteHeader_guard m Hf) in Hr, Hs.
  destruct (IH (Write b m).2 Hp' Hf') as (Is & It & Ih & Ic & Ip & Iw).
  cbv zeta in Is, It, Ih, Ic, Ip, Iw.
  split_and!; try congruence.
  - rewrite Is, Hs, <- app_assoc. done.
  - intros Hw. destruct (Iw Hw) as [Ir Iz]. rewrite Ir, Iz, Hz, Hr, Hw. done.
Qed.


(** Extra X3.  Over a connection on which every write succeeds in full, the
    same run of writes reports to the handler the length of each chunk with
    no error, and the size field ends at its start value plus those lengths
    (in [int] arithmetic). *)
Theorem X3_pass_through_accounting (m : Mem T) b bs :
  passes_through m ->
  sound_writes ->
  let r := serve (map OpWrite (b :: bs)) m in
  r.1 = map (fun c => RWritten (blen c) None) (b :: bs) /\
  size (icpt r.2) = foldl (fun n c => wrap64 (n + blen c)) (size (icpt m)) (b :: bs).
Proof.
  intros Hp Hw. cbn.
  destruct (Write_through b m Hp) as (Hr & Hs & Ht & Hh & Hc & Hz & Hf' & Hp').
  destruct (writes_through bs (Write b m).2 Hp' Hf') as (_ & _ & _ & _ & _ & Iw).
  destruct (Iw Hw) as [Ir Iz]. cbv zeta in Ir, Iz.
  rewrite Ir, Iz, Hz, Hr, Hw. done.
Qed.

(** ** Buffering *)

(** Extra X4.  With the header recorded, a run of writes that the engine
    takes into its response buffer without a verdict sends nothing to the
    downstream writer and leaves the status deferred as it was; the engine
    receives each chunk in one [WriteResponseBody] call, in order, and no
    other call. *)
Theorem X4_buffered_writes_send_nothing (m : Mem T) bs :
  wroteHeader (icpt m) = true ->
  buffers (engine (tx (icpt m))) bs ->
  let r := serve (map OpWrite bs) m in
  seen r.2 = seen m /\
  flushed r.2 = flushed m /\
  calls (tx (icpt r.2)) = calls (tx (icpt m)) ++ map CWriteResponseBody bs /\
  header (w (icpt r.2)) = header (w (icpt m)) /\
  statusCode (icpt r.2) = statusCode (icpt m) /\
  wroteHeader (icpt r.2) = true.
Proof.
  revert m. induction bs as [|b bs IH]; intros m Hw Hb.
  { cbn. rewrite app_nil_r. split_and!; done. }
  destruct Hb as (Hi & Ha & Hv & Hb).
  assert (Write b m =
          (((eWriteResponseBody b (engine (tx (icpt m)))).1.1.2,
            (eWriteResponseBody b (engine (tx (icpt m)))).1.2),
           upd (fun i => set_size
                  (wrap64 (size i + (eWriteResponseBody b (engine (tx (icpt m)))).1.1.2)) i)
             (upd (set_tx (WriteResponseBody b (tx (icpt m))).2) m))) as Ew.
  { unfold Write, IsInterrupted, IsResponseBodyAccessible, IsResponseBodyProcessable.
    rewrite Hi, Hw. cbn [negb]. rewrite Ha.
    unfold WriteResponseBody, invoke. cbn [fst snd].
    destruct (eWriteResponseBody b (engine (tx (icpt m)))) as [[[it n] err] e'].
    cbn in Hv. subst it. done. }
  change (serve (map OpWrite (b :: bs)) m) with
    (let r := call (OpWrite b) m in
     let rs := serve (map OpWrite bs) r.2 in (r.1 :: rs.1, rs.2)).
  cbv zeta. cbn [call fst snd]. rewrite Ew. cbn [fst snd].
  match goal with |- context [serve _ ?m'] =>
    destruct (IH m') as (Is & If & Ic & Ih & Ist & Iw); [done|exact Hb|]
  end.
  cbv zeta in Is, If, Ic, Ih, Ist, Iw.
  split_and!; try done.
  rewrite Ic. cbn. by rewrite <- app_assoc.
Qed.

(** ** Bulk writes *)



(** Extra X6.  Once a verdict stands the bulk writes discard as [Write]
    does: [WriteString] returns [(0, nil)], and [ReadFrom] returns zero bytes
    with the short-write error of the copy loop as soon as the source yields
    a chunk that is not empty (with the source's own error otherwise);
    neither changes any state. *)
Theorem X6_bulk_writes_after_verdict (m : Mem T) :
  interrupted m = true ->
  (forall s, WriteString s m = ((0, None), m)) /\
  (forall src,
      ReadFrom src m =
      ((0, if forallb (fun c => blen c =? 0) (chunks src)
           then read_err src else Some "short write"), m)).
Proof.
  intros Hi. split.
  - intros s. unfold WriteString. by apply interrupted_Write.
  - intros src. unfold ReadFrom, io_Copy. generalize (read_err src) as rerr.
    induction (chunks src) as [|c cs IH]; intros rerr; cbn; [done|].
    destruct (blen c =? 0) eqn:E; cbn; [apply IH|].
    rewrite (interrupted_Write c m Hi). cbn.
    pose proof (blen_nonneg c).
    replace (blen c <? 0) with false by (symmetry; apply Z.ltb_ge; lia). cbn.
    by rewrite E.
Qed.

(** ** Releasing the buffered body *)

Lemma copy_down_sound cs rerr n rw :
  sound_writes ->
  let r := copy_chunks down_Write cs rerr n rw in
  r.1.2 = rerr /\
  events r.2 = events rw ++ map EvWrite (List.filter nonempty cs) /\
  header r.2 = header rw.
Proof.
  intros Hw. revert n rw. induction cs as [|c cs IH]; intros n rw.
  { cbn. by rewrite app_nil_r. }
  cbn [copy_chunks List.filter]. unfold nonempty at 1.
  destruct (blen c =? 0) eqn:E0; cbn [negb]; [apply IH|].
  assert (down_Write c rw = (blen c, None, record (EvWrite c) rw)) as Ed
    by (unfold down_Write; by rewrite Hw).
  rewrite Ed. cbv beta iota zeta.
  pose proof (blen_nonneg c).
  replace (blen c <? 0) with false by (symmetry; apply Z.ltb_ge; lia).
  rewrite Z.ltb_irrefl. cbn [orb]. rewrite Z.eqb_refl. cbn [negb].
  destruct (IH (wrap64 (n + blen c)) (record (EvWrite c) rw)) as (Ir & Ie & Ih).
  cbv zeta in Ir, Ie, Ih.
  split_and!; try done. rewrite Ie. cbn. by rewrite <- app_assoc.
Qed.

(** Extra X7.  The response phase driver on an inspected body that passes:
    no verdict standing, the response-body phase without verdict or error,
    and the engine hands out its buffer.  Over a connection on which every
    write succeeds in full the deferred status line is flushed (the recorded
    status, unless flushed before), then the buffer is written chunk by
    chunk; the driver reports the error that ended the reader, wrapped, or
    none.  The headers are not touched. *)
Theorem X7_buffered_body_released (m : Mem T) (reader : Reader) :
  interrupted m = false ->
  inspected m = true ->
  (ProcessResponseBody (tx (icpt m))).1 = (None, None) ->
  ResponseBodyReader (ProcessResponseBody (tx (icpt m))).2 = inr reader ->
  sound_writes ->
  let r := processResponse m in
  r.1 = (fun e => "failed to copy the response body: " +:+ e) <$> read_err reader /\
  seen r.2 =
    seen m ++ (if flushed m then [] else [EvWriteHeader (statusCode (icpt m))]) ++
    map EvWrite (List.filter nonempty (chunks reader)) /\
  body_bytes (seen r.2) = body_bytes (seen m) ++ List.concat (chunks reader) /\
  header (w (icpt r.2)) = header (w (icpt m)).
Proof.
  unfold interrupted, inspected. intros Hi Ha Hp Hr Hw. cbv zeta.
  unfold processResponse. rewrite Hi, Ha, Hp. cbn [fst snd tx icpt upd set_tx]. rewrite Hr.
  set (m1 := flushWriteHeader (upd (set_tx (ProcessResponseBody (tx (icpt m))).2) m)).
  assert (seen m1 = seen m ++ (if flushed m then [] else [EvWriteHeader (statusCode (icpt m))]))
    as E1.
  { subst m1. rewrite flushWriteHeader_seen. unfold flushed, seen. cbn.
    destruct (isWriteHeaderFlush (icpt m)); [by rewrite app_nil_r|done]. }
  assert (header (w (icpt m1)) = header (w (icpt m))) as H1.
  { subst m1. unfold flushWriteHeader. by destruct (negb _). }
  unfold io_Copy.
  destruct (copy_down_sound (chunks reader) (read_err reader) 0 (w (icpt m1)) Hw)
    as (Cr & Ce & Ch).
  cbv zeta in Cr, Ce, Ch. clearbody m1.
  set (w' := (copy_chunks down_Write (chunks reader) (read_err reader) 0 (w (icpt m1))).2) in *.
  set (ext := if flushed m then [] else [EvWriteHeader (statusCode (icpt m))]) in *.
  assert (seen (upd (set_w w') m1) =
          seen m ++ ext ++ map EvWrite (List.filter nonempty (chunks reader))) as Sf.
  { unfold seen at 1. cbn [icpt upd w set_w]. rewrite Ce. fold (seen m1).
    by rewrite E1, <- app_assoc. }
  assert (header (w (icpt (upd (set_w w') m1))) = header (w (icpt m))) as Hf
    by (cbn [icpt upd w set_w]; congruence).
  assert (body_bytes (seen (upd (set_w w') m1)) =
          body_bytes (seen m) ++ List.concat (chunks reader)) as Bf.
  { rewrite Sf, !body_bytes_app, body_bytes_writes, concat_nonempty.
    subst ext. by destruct (flushed m). }
  rewrite Cr. destruct (read_err reader) as [e|]; cbn [fst snd]; split_and!; done.
Qed.

(** Extra X8.  When the engine cannot hand out its buffer while the status
    is deferred, the driver answers 500: that status line is the only thing
    the writer receives, and the reader's error is reported, wrapped. *)
Theorem X8_buffer_release_failure (m : Mem T) (e : error) :
  interrupted m = false ->
  inspected m = true ->
  (ProcessResponseBody (tx (icpt m))).1 = (None, None) ->
  ResponseBodyReader (ProcessResponseBody (tx (icpt m))).2 = inl e ->
  flushed m = false ->
  let r := processResponse m in
  r.1 = Some ("failed to release the response body reader: " +:+ e) /\
  seen r.2 = seen m ++ [EvWriteHeader StatusInternalServerError] /\
  RecordedStatus (icpt r.2) = StatusInternalServerError /\
  header (w (icpt r.2)) = header (w (icpt m)).
Proof.
  unfold interrupted, inspected, flushed, seen. intros Hi Ha Hp Hr Hf. cbv zeta.
  unfold processResponse. rewrite Hi, Ha, Hp. cbn [fst snd tx icpt upd set_tx]. rewrite Hr. cbn.
  unfold flushWriteHeader. cbn. rewrite Hf. by cbn.
Qed.
End Writes.

(** ** The request phase driver, call by call *)

Section RequestTrace.
Context {T : Type} `{Engine T} `{Wire}.

Lemma add_request_headers_calls h (t : Session T) :
  calls (add_request_headers h t) = calls t ++ header_calls CAddRequestHeader h.
Proof.
  unfold add_request_headers, header_calls. generalize (range h). intros l. revert t.
  induction l as [|[k vv] l IH]; intros t; cbn; [by rewrite app_nil_r|].
  rewrite IH. rewrite app_assoc. f_equal. clear IH. revert t.
  induction vv as [|v vv IH]; intros t; cbn; [by rewrite app_nil_r|].
  rewrite IH. cbn. by rewrite <- app_assoc.
Qed.

Lemma add_response_headers_calls h (t : Session T) :
  calls (add_response_headers h t) = calls t ++ header_calls CAddResponseHeader h.
Proof.
  unfold add_response_headers, header_calls. generalize (range h). intros l. revert t.
  induction l as [|[k vv] l IH]; intros t; cbn; [by rewrite app_nil_r|].
  rewrite IH. rewrite app_assoc. f_equal. clear IH. revert t.
  induction vv as [|v vv IH]; intros t; cbn; [by rewrite app_nil_r|].
  rewrite IH. cbn. by rewrite <- app_assoc.
Qed.

(** Up to the request-header phase. *)
Lemma processRequest_preamble (t : Session T) req :
  exists t',
    calls t' = calls t ++ request_preamble req /\
    processRequest t req =
    match TransferEncoding req with
    | Some [] => (Panicked "runtime error: index out of range [0] with length 0", t', req)
    | _ => request_phases t' req
    end.
Proof.
  unfold processRequest, request_preamble.
  destruct (negb (LastIndexByte (RemoteAddr req) ":" =? -1));
    destruct (negb (String.eqb (Host req) ""));
    destruct (TransferEncoding req) as [[|te tes]|];
    (eexists; split; [|reflexivity]);
    cbn [calls invoke_ ProcessConnection ProcessURI SetServerName AddRequestHeader];
    rewrite add_request_headers_calls; cbn [calls invoke_ ProcessConnection ProcessURI];
    rewrite <- ?app_assoc; cbn; rewrite ?app_nil_r; done.
Qed.

(** From the request-header phase on. *)
Lemma request_phases_calls (t : Session T) req :
  let r := request_phases t req in
  exists ext,
    calls r.1.2 = calls t ++ CProcessRequestHeaders :: ext /\
    ((ext = [] \/ ext = [CReadRequestBodyFrom]) /\ r.1.1 <> Returned (None, None) \/
     ext = [CProcessRequestBody] \/ ext = [CReadRequestBodyFrom; CProcessRequestBody]).
Proof.
  unfold request_phases.
  destruct (eProcessRequestHeaders (engine t)) as [it e1] eqn:E1.
  unfold ProcessRequestHeaders, invoke. rewrite E1. cbn [fst snd].
  destruct it as [it|].
  { exists []. split; [done|]. left. split; [by left|done]. }
  set (t1 := {| engine := e1; calls := calls t ++ [CProcessRequestHeaders];
                debuglog := debuglog t |}).
  assert (exists ext, calls (ProcessRequestBody t1).2 =
                      calls t ++ CProcessRequestHeaders :: ext /\
                      ext = [CProcessRequestBody]) as Lb.
  { exists [CProcessRequestBody]. split; [|done]. cbn. by rewrite <- app_assoc. }
  destruct (IsRequestBodyAccessible t1).
  2:{ destruct Lb as (ext & E & ->). eexists. split; [exact E|]. by right; left. }
  destruct (Body req) as [| |body].
  1,2: destruct Lb as (ext & E & ->); eexists; (split; [exact E|]); by right; left.
  unfold ReadRequestBodyFrom, invoke.
  destruct (eReadRequestBodyFrom body (engine t1)) as [[[[it n] err] rest] e2]. cbn [fst snd].
  destruct err as [e|].
  { exists [CReadRequestBodyFrom]. split; [cbn; by rewrite <- app_assoc|].
    left. split; [by right|done]. }
  destruct it as [it|].
  { exists [CReadRequestBodyFrom]. split; [cbn; by rewrite <- app_assoc|].
    left. split; [by right|done]. }
  destruct (RequestBodyReader _) as [e|rbr].
  { exists [CReadRequestBodyFrom]. split; [cbn; by rewrite <- app_assoc|].
    left. split; [by right|done]. }
  exists [CReadRequestBodyFrom; CProcessRequestBody].
  split; [cbn; by rewrite <- !app_assoc|]. by right; right.
Qed.

(** Extra X9.  The calls [processRequest] makes, in order: the connection
    with the client and port taken from the remote address, the URI, every
    value of every request header (key by key, in the order of one traversal
    of the header map, whichever it is), the host as a [Host] header and as
    the server name when there is one, the first transfer encoding when
    there is one, and only then the request-header phase, followed by at
    most one read of the body and at most one request-body phase.  A
    transfer encoding slice that is empty without being nil makes the
    function panic, with an index out of range, before any phase is
    evaluated. *)
Theorem X9_request_calls_in_order (t : Session T) (req : Request) :
  let r := processRequest t req in
  exists entries,
    entries ≡ₚ map_to_list (Header req) /\
    match TransferEncoding req with
    | Some [] =>
        r.1.1 = Panicked "runtime error: index out of range [0] with length 0" /\
        calls r.1.2 = calls t ++ request_preamble_of entries req
    | _ =>
        exists ext,
          calls r.1.2 =
            calls t ++ request_preamble_of entries req ++ CProcessRequestHeaders :: ext /\
          (ext = [] \/ ext = [CReadRequestBodyFrom] \/ ext = [CProcessRequestBody] \/
           ext = [CReadRequestBodyFrom; CProcessRequestBody])
    end.
Proof.
  cbv zeta. exists (range (Header req)). split; [done|].
  change (request_preamble_of (range (Header req)) req) with (request_preamble req).
  destruct (processRequest_preamble t req) as (t' & Ec & Ep). rewrite Ep.
  destruct (TransferEncoding req) as [[|te tes]|]; [done| |];
    destruct (request_phases_calls t' req) as (ext & Ee & Hs); cbv zeta in Ee;
    exists ext; (split; [by rewrite Ee, Ec, <- app_assoc|]); tauto.
Qed.

(** Extra X10.  [processRequest] lets a request through (no verdict, no
    error) only after both the request-header phase and the request-body
    phase were evaluated, the body phase last. *)
Theorem X10_let_through_after_both_phases (t : Session T) (req : Request) :
  (processRequest t req).1.1 = Returned (None, None) ->
  exists pre,
    calls (processRequest t req).1.2 =
      calls t ++ request_preamble req ++ CProcessRequestHeaders :: pre ++ [CProcessRequestBody] /\
    (pre = [] \/ pre = [CReadRequestBodyFrom]).
Proof.
  destruct (processRequest_preamble t req) as (t' & Ec & Ep). rewrite Ep.
  destruct (TransferEncoding req) as [[|te tes]|]; [done| |]; intros Hr;
    destruct (request_phases_calls t' req) as (ext & Ee & [[_ Hn]|[->| ->]]);
    cbv zeta in *; try done;
    [exists []|exists [CReadRequestBodyFrom]|exists []|exists [CReadRequestBodyFrom]];
    (split; [by rewrite Ee, Ec, <- app_assoc|]); tauto.
Qed.
End RequestTrace.

(** ** Host and port of the remote address *)

Lemma last_index_from_absent c s pos :
  all_chars (fun a => negb (Ascii.eqb a c)) s = true -> last_index_from pos c s = -1.
Proof.
  revert pos. induction s as [|a s IH]; intros pos; cbn; [done|].
  intros [Ha Hs]%andb_prop. rewrite IH by done. cbn.
  by destruct (Ascii.eqb a c).
Qed.

Lemma last_index_from_app c host rest pos :
  last_index_from (pos + Z.of_nat (String.length host)) c rest <> -1 ->
  last_index_from pos c (host +:+ rest) =
  last_index_from (pos + Z.of_nat (String.length host)) c rest.
Proof.
  revert pos. induction host as [|a host IH]; intros pos Hr.
  - cbn in *. by rewrite Z.add_0_r in *.
  - replace (pos + Z.of_nat (String.length (String a host)))
      with (pos + 1 + Z.of_nat (String.length host)) in * by (cbn [String.length]; lia).
    simpl. rewrite IH by done. apply Z.eqb_neq in Hr. by rewrite Hr.
Qed.

Lemma take_str_app host rest : take_str (String.length host) (host +:+ rest) = host.
Proof.
  induction host as [|a host IH]; simpl; [by destruct rest|]. by rewrite IH.
Qed.

Lemma drop_str_app host rest : drop_str (String.length host) (host +:+ rest) = rest.
Proof. induction host as [|a host IH]; simpl; [by destruct rest|done]. Qed.

(** Splitting at the last colon undoes joining host and port with one. *)
Lemma split_host_port host port :
  all_chars (fun a => negb (Ascii.eqb a ":")) port = true ->
  let addr := host +:+ ":" +:+ port in
  let idx := LastIndexByte addr ":" in
  idx <> -1 /\ slice_to addr idx = host /\ slice_from addr (idx + 1) = port.
Proof.
  intros Hp addr idx.
  assert (last_index_from (0 + Z.of_nat (String.length host)) ":" (":" +:+ port)
          = 0 + Z.of_nat (String.length host)) as E.
  { simpl. by rewrite last_index_from_absent. }
  assert (idx = Z.of_nat (String.length host)) as Ei.
  { subst idx addr. unfold LastIndexByte. rewrite last_index_from_app; rewrite E; lia. }
  rewrite Ei. split; [lia|]. subst addr. unfold slice_to, slice_from.
  rewrite Nat2Z.id. replace (Z.to_nat (Z.of_nat (String.length host) + 1))
    with (S (String.length host)) by lia.
  split; [apply take_str_app|].
  clear. induction host as [|a host IH]; [done|]. simpl in *. exact IH.
Qed.

Section Address.
Context {T : Type} `{Engine T} `{Wire}.

(** Extra X11.  For a remote address made of a host, a colon and a port
    text without colon, whatever colons the host has (an IPv6 literal in
    brackets), the connection phase gets exactly that host, and as port what
    [strconv.Atoi] makes of the port text. *)
Theorem X11_host_and_port_split (t : Session T) (req : Request) (host port : string) :
  RemoteAddr req = host +:+ ":" +:+ port ->
  all_chars (fun a => negb (Ascii.eqb a ":")) port = true ->
  exists rest,
    calls (processRequest t req).1.2 =
    calls t ++ CProcessConnection host (Atoi port).1 "" 0 :: rest.
Proof.
  intros Ha Hp. destruct (split_host_port host port Hp) as (Hi & Hh & Hq).
  cbv zeta in Hi, Hh, Hq. rewrite <- Ha in Hi, Hh, Hq.
  destruct (processRequest_with_separator t req Hi) as [rest E].
  exists rest. by rewrite E, Hh, Hq.
Qed.
End Address.

(** ** The response-header phase *)

Section HeaderPhase.
Context {T : Type} `{Engine T} `{Wire}.

(** Extra X12.  The first [WriteHeader] hands every value of every header
    staged on the downstream writer to the engine (key by key, in the order
    of one traversal of the header map, whichever it is; the values of a key
    in their order) and then evaluates the response-header phase with the
    status given and the protocol the interceptor was reset with; these are
    all the calls it makes. *)
Theorem X12_WriteHeader_calls (m : Mem T) (code : Z) :
  wroteHeader (icpt m) = false ->
  exists entries,
    entries ≡ₚ map_to_list (header (w (icpt m))) /\
    calls (tx (icpt (WriteHeader code m))) =
    calls (tx (icpt m)) ++ header_calls_of CAddResponseHeader entries ++
    [CProcessResponseHeaders code (proto (icpt m))].
Proof.
  intros Hw. exists (range (header (w (icpt m)))). split; [done|].
  change (header_calls_of CAddResponseHeader (range (header (w (icpt m)))))
    with (header_calls CAddResponseHeader (header (w (icpt m)))).
  unfold WriteHeader. rewrite Hw.
  cbn [icpt upd tx set_tx set_statusCode set_size proto w].
  destruct (ProcessResponseHeaders _ _ _).1 eqn:E;
    rewrite ?flushWriteHeader_session; cbn; rewrite add_response_headers_calls;
    by rewrite <- app_assoc.
Qed.











(** Extra X14.  A verdict given to a [WriteHeader] call of the handler's
    own blocks the response for good.  The handler calls [WriteHeader] on a
    fresh interceptor, the response-header phase gives a verdict, which the
    engine keeps standing, and the call returns: whatever the handler and
    the driver do after that call, the writer has received one status line,
    the verdict's (403 for a [deny] without status, the status asked for
    with any other action), and no body byte, whether the engine inspects
    the response body or not.  The [WriteHeader(200)] that [Write] makes by
    itself is not covered: the write that makes it goes on after the
    verdict. *)
Theorem X14_header_verdict_blocks
    (t : Session T) writer pr pooled log (code : Z) it t' (l : list Step) :
  sticky ->
  ProcessResponseHeaders code pr (add_response_headers (header writer) t) = (Some it, t') ->
  IsInterrupted t' = true ->
  let m := steps l (WriteHeader code (fresh_mem t writer pr pooled log)) in
  status_lines (seen m) =
    status_lines (events writer) ++ [obtainStatusCodeFromInterruptionOrDefault it code] /\
  body_bytes (seen m) = body_bytes (events writer).
Proof.
  intros Hs Hp Hi. set (m1 := WriteHeader code (fresh_mem t writer pr pooled log)).
  assert (seen m1 = events writer ++
            [EvWriteHeader (obtainStatusCodeFromInterruptionOrDefault it code)] /\
          flushed m1 = true /\ interrupted m1 = true) as (E1 & F1 & I1).
  { subst m1. unfold WriteHeader, fresh_mem.
    cbn [icpt reset wroteHeader set_wroteHeader set_isWriteHeaderFlush set_size set_proto
         set_statusCode set_tx set_w upd tx w proto].
    rewrite Hp. cbn [fst snd]. unfold interrupted.
    rewrite flushWriteHeader_flushed, flushWriteHeader_seen, flushWriteHeader_session.
    by cbn. }
  clearbody m1. cbv zeta.
  destruct (sticky_steps l m1 Hs I1) as [_ Hb].
  rewrite (flushed_status_lines l m1 F1), Hb, E1, status_lines_app, body_bytes_app.
  split; [done|]. cbn. apply app_nil_r.
Qed.

(** ** Cleaning the headers, key by key *)

(** Extra X15.  [cleanHeaders] removes exactly the keys that are in
    canonical form: a key stored in another form stays with its values.  It
    sends nothing and leaves the transaction alone. *)
Theorem X15_cleanHeaders_removes_canonical_keys (m : Mem T) (k : string) :
  header (w (icpt (cleanHeaders m))) !! k =
    (if decide (CanonicalMIMEHeaderKey k = k) then None else header (w (icpt m)) !! k) /\
  seen (cleanHeaders m) = seen m /\
  tx (icpt (cleanHeaders m)) = tx (icpt m).
Proof. split; [apply clean_lookup|done]. Qed.
End HeaderPhase.

(** ** The middleware, seen from the client *)

Section Middleware.
Context {T : Type} `{Engine T} `{Wire}.

(** Extra X16.  With the rule engine on, the router's writer receives
    through the middleware either nothing, or one status line followed by
    body writes only. *)
Theorem X16_Intercept_status_then_body next (fresh : T) writer req pooled log :
  eIsRuleEngineOff fresh = false ->
  exists ext,
    events (x_writer (Intercept next fresh writer req pooled log)) = events writer ++ ext /\
    (ext = [] \/ exists c bs, ext = EvWriteHeader c :: map EvWrite bs).
Proof.
  intros Hoff. unfold Intercept, IsRuleEngineOff. cbn [NewTransaction engine]. rewrite Hoff.
  destruct (processRequest _ req) as [[out t] req'].
  destruct out as [[[it|] [err|]]|reason]; cbn [x_writer];
    try (exists []; rewrite app_nil_r; split; [done|by left]).
  - eexists. split; [reflexivity|]. right. by eexists _, [].
  - rewrite serve_steps. set (l := map Handle (script next)).
    assert (forall l', exists ext,
              seen (steps l' (fresh_mem t writer (Proto req') pooled log))
                = events writer ++ ext /\
              (ext = [] \/ exists c bs, ext = EvWriteHeader c :: map EvWrite bs)) as Hl.
    { intros l'. destruct (advance_steps l' (fresh_mem t writer (Proto req') pooled log))
        as (ext & E & G).
      exists ext. split; [exact E|]. cbn in G.
      destruct (flushed (steps l' _)); [by right|by left]. }
    destruct (panics next); [apply Hl|].
    destruct (Hl (l ++ [Drive])) as (ext & E & G). exists ext. split; [|done].
    rewrite <- E. unfold steps. rewrite foldl_app. cbn.
    fold (steps l (fresh_mem t writer (Proto req') pooled log)). unfold seen, fresh_mem.
    by destruct (processResponse _) as [[e|] m2].
Qed.

(** Extra X17.  When the middleware does not call the handler (a verdict, a
    failure or a panic of the request phases), the rule engine is on, no
    interceptor is taken from the pool, the headers staged on the writer are
    untouched and no body byte is written; the writer receives nothing, or
    for a verdict the one status line [obtainStatusCodeFromInterruptionOrDefault]
    gives with 200 as the default. *)
Theorem X17_blocked_request_response next (fresh : T) writer req pooled log :
  let x := Intercept next fresh writer req pooled log in
  x_next_called x = false ->
  eIsRuleEngineOff fresh = false /\
  x_pool x = None /\
  x_stdlog x = log /\
  header (x_writer x) = header writer /\
  (events (x_writer x) = events writer \/
   exists it,
     (processRequest (NewTransaction fresh) req).1.1 = Returned (Some it, None) /\
     events (x_writer x) =
       events writer ++ [EvWriteHeader (obtainStatusCodeFromInterruptionOrDefault it StatusOK)]).
Proof.
  cbv zeta. unfold Intercept, IsRuleEngineOff. cbn [NewTransaction engine].
  destruct (eIsRuleEngineOff fresh); [done|].
  destruct (processRequest _ req) as [[out t] req'].
  destruct out as [[[it|] [err|]]|reason]; cbn; intros Hn; try done;
    split_and!; try done; try (by left).
  right. by exists it.
Qed.
End Middleware.

(** ** The properties above at concrete requests *)

Lemma sound_wire_sound : sound_writes.
Proof. by intros rw b. Qed.

Lemma plain_passes_through : passes_through (WriteHeader 200 (stub_mem plain_stub)).
Proof. by repeat split. Qed.


Lemma X3_witness :
  let m := WriteHeader 200 (stub_mem plain_stub) in
  passes_through m /\ sound_writes /\
  (serve (map OpWrite [abc; abc]) m).1 = [RWritten 3 None; RWritten 3 None] /\
  size (icpt (serve (map OpWrite [abc; abc]) m).2) = 6.
Proof.
  intros m. split; [exact plain_passes_through|]. split; [exact sound_wire_sound|].
  exact (X3_pass_through_accounting m abc [abc] plain_passes_through sound_wire_sound).
Defined.

Lemma X4_witness :
  let m := WriteHeader 200 (stub_mem quiet_stub) in
  wroteHeader (icpt m) = true /\
  buffers (engine (tx (icpt m))) [abc; abc] /\
  seen (serve (map OpWrite [abc; abc]) m).2 = [] /\
  flushed (serve (map OpWrite [abc; abc]) m).2 = false.
Proof.
  intros m.
  assert (wroteHeader (icpt m) = true) as Hw by reflexivity.
  assert (buffers (engine (tx (icpt m))) [abc; abc]) as Hb by (by repeat split).
  destruct (X4_buffered_writes_send_nothing m [abc; abc] Hw Hb) as (Hs & Hf & _).
  split; [exact Hw|]. split; [exact Hb|]. split; [exact Hs|exact Hf].
Defined.


Lemma X6_witness :
  let m := stub_mem (stub (Some deny) None None None) in
  interrupted m = true /\
  WriteString "abc" m = ((0, None), m) /\
  ReadFrom {| chunks := [abc]; read_err := None |} m = ((0, Some "short write"), m).
Proof.
  intros m. assert (interrupted m = true) as Hi by reflexivity.
  destruct (X6_bulk_writes_after_verdict m Hi) as [Hs Hr].
  split; [exact Hi|]. split; [apply Hs|apply Hr].
Defined.

Lemma X7_witness :
  let m := (serve [OpWrite abc] (stub_mem quiet_stub)).2 in
  let reader := {| chunks := [abc]; read_err := None |} in
  interrupted m = false /\ inspected m = true /\
  (ProcessResponseBody (tx (icpt m))).1 = (None, None) /\
  ResponseBodyReader (ProcessResponseBody (tx (icpt m))).2 = inr reader /\
  sound_writes /\
  (processResponse m).1 = None /\
  seen (processResponse m).2 = [EvWriteHeader 200; EvWrite abc].
Proof.
  intros m reader.
  assert (interrupted m = false) as Hi by reflexivity.
  assert (inspected m = true) as Ha by reflexivity.
  assert ((ProcessResponseBody (tx (icpt m))).1 = (None, None)) as Hp by reflexivity.
  assert (ResponseBodyReader (ProcessResponseBody (tx (icpt m))).2 = inr reader) as Hr
    by reflexivity.
  destruct (X7_buffered_body_released m reader Hi Ha Hp Hr sound_wire_sound)
    as (He & Hs & _).
  split; [exact Hi|]. split; [exact Ha|]. split; [exact Hp|]. split; [exact Hr|].
  split; [exact sound_wire_sound|]. split; [exact He|exact Hs].
Defined.

Lemma X8_witness :
  let m := (serve [OpWrite abc]
              (fresh_mem (NewTransaction sealed) blank_writer "HTTP/1.1"
                 {| w := blank_writer; tx := NewTransaction sealed; proto := "";
                    statusCode := 0; size := 0; isWriteHeaderFlush := false;
                    wroteHeader := false |} [])).2 in
  interrupted m = false /\ inspected m = true /\ flushed m = false /\
  (processResponse m).1 =
    Some "failed to release the response body reader: buffer closed" /\
  seen (processResponse m).2 = [EvWriteHeader 500].
Proof.
  intros m.
  assert (interrupted m = false) as Hi by reflexivity.
  assert (inspected m = true) as Ha by reflexivity.
  assert ((ProcessResponseBody (tx (icpt m))).1 = (None, None)) as Hp by reflexivity.
  assert (ResponseBodyReader (ProcessResponseBody (tx (icpt m))).2 = inl "buffer closed")
    as Hr by reflexivity.
  assert (flushed m = false) as Hf by reflexivity.
  destruct (X8_buffer_release_failure m "buffer closed" Hi Ha Hp Hr Hf) as (He & Hs & _).
  split; [exact Hi|]. split; [exact Ha|]. split; [exact Hf|]. split; [exact He|exact Hs].
Defined.

Lemma X10_witness :
  let r := processRequest (NewTransaction quiet_stub) (get_request "127.0.0.1:53124") in
  r.1.1 = Returned (None, None) /\
  exists pre,
    calls r.1.2 =
      calls (NewTransaction quiet_stub) ++ request_preamble (get_request "127.0.0.1:53124") ++
      CProcessRequestHeaders :: pre ++ [CProcessRequestBody] /\
    (pre = [] \/ pre = [CReadRequestBodyFrom]).
Proof.
  intros r. assert (r.1.1 = Returned (None, None)) as Hr by (vm_compute; reflexivity).
  split; [exact Hr|].
  exact (X10_let_through_after_both_phases (NewTransaction quiet_stub)
           (get_request "127.0.0.1:53124") Hr).
Defined.

Lemma X11_witness :
  RemoteAddr (get_request "[2001:db8::1]:8080") = "[2001:db8::1]" +:+ ":" +:+ "8080" /\
  all_chars (fun a => negb (Ascii.eqb a ":")) "8080" = true /\
  exists rest,
    calls (processRequest (NewTransaction quiet_stub) (get_request "[2001:db8::1]:8080")).1.2 =
    calls (NewTransaction quiet_stub) ++
    CProcessConnection "[2001:db8::1]" (Atoi "8080").1 "" 0 :: rest.
Proof.
  assert (RemoteAddr (get_request "[2001:db8::1]:8080") = "[2001:db8::1]" +:+ ":" +:+ "8080")
    as Ha by reflexivity.
  assert (all_chars (fun a => negb (Ascii.eqb a ":")) "8080" = true) as Hp by reflexivity.
  split; [exact Ha|]. split; [exact Hp|].
  exact (X11_host_and_port_split (NewTransaction quiet_stub)
           (get_request "[2001:db8::1]:8080") "[2001:db8::1]" "8080" Ha Hp).
Defined.

Lemma X12_witness :
  let m := fresh_mem (NewTransaction quiet_stub) cookie_writer "HTTP/1.1" blank_interceptor [] in
  wroteHeader (icpt m) = false /\
  calls (tx (icpt (WriteHeader 201 m))) =
    [CAddResponseHeader "Set-Cookie" "a=1"; CAddResponseHeader "Set-Cookie" "b=2";
     CProcessResponseHeaders 201 "HTTP/1.1"].
Proof.
  intros m. assert (wroteHeader (icpt m) = false) as Hw by reflexivity.
  split; [exact Hw|].
  destruct (X12_WriteHeader_calls m 201 Hw) as (entries & Hp & E).
  change (header (w (icpt m))) with (header cookie_writer) in Hp.
  unfold cookie_writer in Hp. cbn [header] in Hp.
  rewrite map_to_list_singleton in Hp. apply Permutation_singleton_r in Hp.
  rewrite E, Hp. reflexivity.
Defined.


Lemma X14_witness :
  let s := header_blocking_stub in
  let m := steps [Handle (OpWrite abc); Drive]
             (WriteHeader 200
                (fresh_mem (NewTransaction s) blank_writer "HTTP/1.1" blank_interceptor [])) in
  sticky (T := Stub) /\
  (ProcessResponseHeaders 200 "HTTP/1.1"
     (add_response_headers (header blank_writer) (NewTransaction s))).1 = Some deny /\
  status_lines (seen m) = status_lines (events blank_writer) ++ [403] /\
  body_bytes (seen m) = body_bytes (events blank_writer).
Proof.
  intros s m. split; [exact stub_sticky|]. split; [reflexivity|].
  exact (X14_header_verdict_blocks (NewTransaction s) blank_writer "HTTP/1.1"
           blank_interceptor [] 200 deny
           (ProcessResponseHeaders 200 "HTTP/1.1"
              (add_response_headers (header blank_writer) (NewTransaction s))).2
           [Handle (OpWrite abc); Drive] stub_sticky eq_refl eq_refl).
Defined.

Lemma X16_witness :
  let x := Intercept {| script := [OpWrite abc]; panics := false |} quiet_stub blank_writer
             (get_request "127.0.0.1:53124") blank_interceptor [] in
  eIsRuleEngineOff quiet_stub = false /\
  exists ext,
    events (x_writer x) = events blank_writer ++ ext /\
    (ext = [] \/ exists c bs, ext = EvWriteHeader c :: map EvWrite bs).
Proof.
  intros x. assert (eIsRuleEngineOff quiet_stub = false) as Ho by reflexivity.
  split; [exact Ho|].
  exact (X16_Intercept_status_then_body {| script := [OpWrite abc]; panics := false |}
           quiet_stub blank_writer (get_request "127.0.0.1:53124") blank_interceptor [] Ho).
Defined.

Lemma X17_witness :
  let x := Intercept {| script := [OpWrite abc]; panics := false |} blocking_stub blank_writer
             (get_request "127.0.0.1:53124") blank_interceptor [] in
  x_next_called x = false /\
  x_pool x = None /\
  header (x_writer x) = header blank_writer.
Proof.
  intros x. assert (x_next_called x = false) as Hn by (vm_compute; reflexivity).
  destruct (X17_blocked_request_response {| script := [OpWrite abc]; panics := false |}
              blocking_stub blank_writer (get_request "127.0.0.1:53124") blank_interceptor []
              Hn) as (_ & Hp & _ & Hh & _).
  split; [exact Hn|]. split; [exact Hp|exact Hh].
Defined.
